(** * Git Log Viewer: commit classification, fold engine, lazy content, search

    A shallow embedding of

    - [src/pygit_viewer/line.py]: the commit wrapper classes, [to_commit],
      [_calculate_level], [Repo.merge_base], [Repo.walker] and
      [Foldable.child_log] (module [line]);
    - [src/glv/ui/history.py]: the [History] content provider with
      [fill_up], [_fold], [_unfold], [toggle_fold] and [search]
      (module [history]).

    Python [int]s are [Z]; list positions that the code only ever uses as
    row numbers are [nat]; exceptions are explicit results. *)

From Stdlib Require Import ZArith String Ascii Bool Lia.
From stdpp Require Import base list.

Set Warnings "-register-all".
Local Open Scope Z_scope.

(* ===================================================================== *)
(** * [pygit_viewer/line.py] *)
(* ===================================================================== *)

Module line.

(** ** The pygit2 objects the module wraps *)

Definition Oid := string.

(** [pygit2.Commit]: its [id], and its [parents] property, which resolves
    the parent objects and raises when one of them is not in the object
    database ([None] here). *)
Inductive GitCommit : Type :=
  mkGitCommit (git_id : Oid) (git_parents : option (list GitCommit)).

Definition git_id (g : GitCommit) : Oid :=
  match g with mkGitCommit i _ => i end.

Definition git_parents (g : GitCommit) : option (list GitCommit) :=
  match g with mkGitCommit _ ps => ps end.

(** [pygit2.Repository], as far as [Repo] calls it. *)
Record GitRepo : Type := mkGitRepo {
  git_merge_base : Oid -> Oid -> option Oid;       (* _repo.merge_base(a, b) *)
  git_getitem : Oid -> GitCommit;                  (* _repo[oid] *)
  git_revparse_single : string -> GitCommit;       (* _repo.revparse_single *)
  git_head_target : Oid;                           (* _repo.head.target *)
  (* _repo.walk(start) after simplify_first_parent() and, when an end is
     given, hide(end) *)
  git_walk : Oid -> option Oid -> list GitCommit
}.

(** [class Repo]: a wrapper around the pygit2 repository. *)
Record Repo : Type := mkRepo { _repo : GitRepo }.

(** ** The commit classes *)

(** The runtime class of a wrapper object. [Commit] itself is the class
    of a commit with one parent. *)
Inductive CommitClass : Type :=
  | PlainCommit | InitialCommit | LastCommit | Merge | Octopus | Subtree.

(** [Commit.__init__] stores [_commit], [_level], [_parent] (and [_oid],
    which is [_commit.id]); [Foldable.__init__] adds [_folded = True]. *)
Inductive Commit : Type :=
  mkCommit (cls : CommitClass) (_commit : GitCommit)
           (_parent : option Commit) (_level : Z) (_folded : option bool).

Definition cls (c : Commit) : CommitClass :=
  match c with mkCommit k _ _ _ _ => k end.
Definition _commit (c : Commit) : GitCommit :=
  match c with mkCommit _ g _ _ _ => g end.
Definition _parent (c : Commit) : option Commit :=
  match c with mkCommit _ _ p _ _ => p end.
Definition level (c : Commit) : Z :=
  match c with mkCommit _ _ _ l _ => l end.
Definition is_folded (c : Commit) : option bool :=
  match c with mkCommit _ _ _ _ f => f end.
Definition oid (c : Commit) : Oid := git_id (_commit c).

(** [isinstance(c, Foldable)]: [Merge], [Octopus] and [Subtree] derive from
    [Foldable]. *)
Definition isinstance_Foldable (c : Commit) : bool :=
  match cls c with
  | Merge | Octopus | Subtree => true
  | PlainCommit | InitialCommit | LastCommit => false
  end.

(** Constructors of the plain classes and of the [Foldable] ones. *)
Definition new_Commit (k : CommitClass) (commit : GitCommit)
    (parent : option Commit) (level : Z) : Commit :=
  mkCommit k commit parent level None.

Definition new_Foldable (k : CommitClass) (commit : GitCommit)
    (parent : option Commit) (level : Z) : Commit :=
  mkCommit k commit parent level (Some true).

(** ** [_calculate_level] *)

Definition _calculate_level (parent : option Commit) : Z :=
  match parent with
  | None => 1
  | Some p => if isinstance_Foldable p then level p + 1 else level p
  end.

(** ** [to_commit] and [Repo.merge_base]

    [to_commit] calls [repo.merge_base], which wraps the merge base with
    [to_commit] again: the recursion follows the history backwards and is
    bounded by [fuel] ([None] is "fuel exhausted", never a Python value).

    [merge_base_with] is [Repo.merge_base] with the recursive call passed
    in: the inner [option] is Python's [Optional]. *)

Definition merge_base_with (wrap : GitCommit -> option Commit)
    (repo : Repo) (oid1 oid2 : GitCommit) : option (option Commit) :=
  match git_merge_base (_repo repo) (git_id oid1) (git_id oid2) with
  | None => Some None                              (* if not oid: return None *)
  | Some o =>
      match wrap (git_getitem (_repo repo) o) with
      | Some c => Some (Some c)
      | None => None
      end
  end.

Fixpoint to_commit (fuel : nat) (repo : Repo) (git_commit : GitCommit)
    (parent : option Commit) : option Commit :=
  match fuel with
  | O => None
  | S fuel' =>
      let level :=
        match parent with
        | None => 1
        | Some _ => _calculate_level parent
        end in
      match git_parents git_commit with
      | None => Some (new_Commit LastCommit git_commit parent level)
      | Some [] => Some (new_Commit InitialCommit git_commit parent level)
      | Some [_] => Some (new_Commit PlainCommit git_commit parent level)
      | Some [p0; p1] =>
          match merge_base_with (fun g => to_commit fuel' repo g None)
                  repo p0 p1 with
          | None => None
          | Some None => Some (new_Foldable Subtree git_commit parent level)
          | Some (Some _) => Some (new_Foldable Merge git_commit parent level)
          end
      | Some (_ :: _ :: _ :: _) =>
          Some (new_Foldable Octopus git_commit parent level)
      end
  end.

Definition merge_base (fuel : nat) (repo : Repo) (oid1 oid2 : GitCommit)
    : option (option Commit) :=
  merge_base_with (fun g => to_commit fuel repo g None) repo oid1 oid2.

(** ** [Repo.walker] and [Foldable.child_log]

    Both are generators; the model gives the whole sequence they yield to
    a consumer that runs them to the end. *)

Inductive exn : Type :=
  StopIteration | IndexError | KeyError | AttributeError.

Inductive run (A : Type) : Type :=
  | Ok (a : A)
  | Raise (e : exn)
  | OutOfFuel.
Arguments Ok {A} a.
Arguments Raise {A} e.
Arguments OutOfFuel {A}.

(** What callers pass as [start] and as [end]. *)
Inductive start_arg : Type :=
  | StartNone | StartStr (s : string) | StartCommit (c : Commit)
  | StartGit (g : GitCommit).

Inductive end_arg : Type :=
  | EndNone | EndStr (s : string) | EndCommit (c : Commit).

Definition walk_start (repo : Repo) (start : start_arg) : Oid :=
  match start with
  | StartNone => git_head_target (_repo repo)
  | StartStr EmptyString => git_head_target (_repo repo)      (* not start *)
  | StartStr s => git_id (git_revparse_single (_repo repo) s)
  | StartCommit c => oid c
  | StartGit g => git_id g
  end.

Definition walk_end (repo : Repo) (end_ : end_arg) : option Oid :=
  match end_ with
  | EndNone => None
  | EndStr s => Some (git_id (git_revparse_single (_repo repo) s))
  | EndCommit c => Some (oid c)
  end.

(** The [for git_commit in walker] loop: every commit is wrapped with the
    commit yielded just before it as its parent context. *)
Fixpoint walker_rest (fuel : nat) (repo : Repo) (gits : list GitCommit)
    (parent : Commit) : option (list Commit) :=
  match gits with
  | [] => Some []
  | git_commit :: gits' =>
      match to_commit fuel repo git_commit (Some parent) with
      | None => None
      | Some tmp =>
          match walker_rest fuel repo gits' tmp with
          | None => None
          | Some rest => Some (tmp :: rest)
          end
      end
  end.

Definition walker (fuel : nat) (repo : Repo) (start : start_arg)
    (end_ : end_arg) (parent : option Commit) : run (list Commit) :=
  match git_walk (_repo repo) (walk_start repo start) (walk_end repo end_) with
  | [] => Raise StopIteration                       (* next(walker) *)
  | first_git_commit :: gits =>
      match to_commit fuel repo first_git_commit parent with
      | None => OutOfFuel
      | Some first =>
          match walker_rest fuel repo gits first with
          | None => OutOfFuel
          | Some rest => Ok (first :: rest)
          end
      end
  end.

(** [Foldable.child_log], overridden by [Subtree.child_log]. *)
Definition child_log (fuel : nat) (repo : Repo) (self : Commit)
    : run (list Commit) :=
  match cls self with
  | Subtree => walker fuel repo (StartCommit self) EndNone (Some self)
  | Merge | Octopus =>
      match git_parents (_commit self) with
      | Some (p0 :: p1 :: _) =>
          match merge_base fuel repo p0 p1 with
          | None => OutOfFuel
          | Some None => walker fuel repo (StartGit p1) EndNone (Some self)
          | Some (Some e) =>
              walker fuel repo (StartGit p1) (EndCommit e) (Some self)
          end
      | Some _ => Raise IndexError                  (* parents[1] *)
      | None => Raise KeyError                      (* parents *)
      end
  | PlainCommit | InitialCommit | LastCommit => Raise AttributeError
  end.

(** ** Termination of the classifier

    [merge_base_step repo g' g]: classifying [g] asks for the merge base of
    its two parents and wraps it, which classifies [g']. In a repository
    the merge base is an ancestor, so every commit is accessible for this
    relation. *)
Definition merge_base_step (repo : Repo) (g' g : GitCommit) : Prop :=
  exists p0 p1 m,
    git_parents g = Some [p0; p1] /\
    git_merge_base (_repo repo) (git_id p0) (git_id p1) = Some m /\
    g' = git_getitem (_repo repo) m.

(** The level [to_commit] gives a commit wrapped in a parent context. *)
Definition context_level (parent : option Commit) : Z :=
  match parent with
  | None => 1
  | Some p => level p + (if isinstance_Foldable p then 1 else 0)
  end.

(** Adjacent records of a walk: the later one is levelled from the
    earlier one. *)
Fixpoint levels_chain (prev : Commit) (cs : list Commit) : Prop :=
  match cs with
  | [] => True
  | c :: cs' => level c = context_level (Some prev) /\ levels_chain c cs'
  end.

(** The shape of a walk: a
    first record levelled from the parent context, every later one from
    the record before it. *)
Definition walk_levels (parent : option Commit) (cs : list Commit) : Prop :=
  exists first rest,
    cs = first :: rest /\
    level first = context_level parent /\
    levels_chain first rest /\
    Forall (fun c => context_level parent <= level c) cs.

(** The class of a commit by the number of its parents, in the order
    the classifier decides it: [LastCommit] is the boundary commit whose
    parents do not resolve, [PlainCommit] the regular one. *)
Definition kind_precedence (repo : Repo) (g : GitCommit) (k : CommitClass)
    : Prop :=
  (git_parents g = None -> k = LastCommit) /\
  (forall ps : list GitCommit, git_parents g = Some ps ->
     (length ps = 0%nat -> k = InitialCommit) /\
     (length ps = 1%nat -> k = PlainCommit) /\
     (length ps = 2%nat ->
        forall p0 p1, ps !! 0%nat = Some p0 -> ps !! 1%nat = Some p1 ->
          (k = Subtree <->
             git_merge_base (_repo repo) (git_id p0) (git_id p1) = None) /\
          (k = Merge <->
             git_merge_base (_repo repo) (git_id p0) (git_id p1) <> None)) /\
     ((2 < length ps)%nat -> k = Octopus)).

(** ** The other methods of the commit classes *)

(** The first [n] characters of a string. *)
Fixpoint str_take (n : nat) (s : string) : string :=
  match n, s with
  | S n', String a s' => String a (str_take n' s')
  | _, _ => EmptyString
  end.

(** [s[0:stop]]: a negative [stop] counts from the end. *)
Definition slice_to (s : string) (stop : Z) : string :=
  if 0 <=? stop then str_take (Z.to_nat stop) s
  else str_take (Z.to_nat (Z.of_nat (String.length s) + stop)) s.

(** [Commit.short_id]; the default of [max_len] is 8. *)
Definition short_id (c : Commit) (max_len : Z) : string :=
  slice_to (oid c) (max_len - 1).

(** [Commit.is_top]. *)
Definition is_top (c : Commit) : bool :=
  match _parent c with
  | Some _ => true
  | None => false
  end.

(** [Foldable.unfold] and [Foldable.fold]. *)
Definition unfold (c : Commit) : Commit :=
  mkCommit (cls c) (_commit c) (_parent c) (level c) (Some false).

Definition fold (c : Commit) : Commit :=
  mkCommit (cls c) (_commit c) (_parent c) (level c) (Some true).

(** [Foldable.children]: every parent but the first, wrapped with the
    commit itself as parent context. *)
Fixpoint wrap_each (fuel : nat) (repo : Repo) (gits : list GitCommit)
    (parent : option Commit) : option (list Commit) :=
  match gits with
  | [] => Some []
  | commit :: gits' =>
      match to_commit fuel repo commit parent with
      | None => None
      | Some c =>
          match wrap_each fuel repo gits' parent with
          | None => None
          | Some cs => Some (c :: cs)
          end
      end
  end.

Definition children (fuel : nat) (repo : Repo) (self : Commit)
    : run (list Commit) :=
  match git_parents (_commit self) with
  | None => Raise KeyError
  | Some ps =>
      match wrap_each fuel repo (drop 1 ps) (Some self) with
      | None => OutOfFuel
      | Some cs => Ok cs
      end
  end.


(** ** A small repository

    [a <- b <- b1 <- c <- f] is the mainline; [c] merges [e], which itself
    merges [x] into [e1]; [e1] and [x] both branch off [b]. *)
Module sample.
Local Open Scope string_scope.
Local Open Scope list_scope.

Definition gA : GitCommit := mkGitCommit "a" (Some []).
Definition gB : GitCommit := mkGitCommit "b" (Some [gA]).
Definition gB1 : GitCommit := mkGitCommit "b1" (Some [gB]).
Definition gE1 : GitCommit := mkGitCommit "e1" (Some [gB]).
Definition gX : GitCommit := mkGitCommit "x" (Some [gB]).
Definition gE : GitCommit := mkGitCommit "e" (Some [gE1; gX]).
Definition gC : GitCommit := mkGitCommit "c" (Some [gB1; gE]).
Definition gF : GitCommit := mkGitCommit "f" (Some [gC]).

Definition one_of (a b x y : Oid) : bool :=
  (String.eqb a x && String.eqb b y) || (String.eqb a y && String.eqb b x).

Definition sample_merge_base (a b : Oid) : option Oid :=
  if one_of a b "b1" "e" || one_of a b "e1" "x" then Some "b"
  else None.

Definition sample_getitem (o : Oid) : GitCommit :=
  if String.eqb o "b" then gB
  else if String.eqb o "b1" then gB1
  else if String.eqb o "e1" then gE1
  else if String.eqb o "x" then gX
  else if String.eqb o "e" then gE
  else if String.eqb o "c" then gC
  else if String.eqb o "f" then gF
  else gA.

Definition sample_walk (start : Oid) (end_ : option Oid) : list GitCommit :=
  if String.eqb start "f" then [gF; gC; gB1; gB; gA]
  else if String.eqb start "e" then [gE; gE1]
  else [].

Definition repo : Repo :=
  mkRepo (mkGitRepo sample_merge_base sample_getitem sample_getitem
            "f" sample_walk).

(** The record of [c] in the top-level walk. *)
Definition gC_record : Commit :=
  new_Foldable Merge gC (Some (new_Commit PlainCommit gF None 1)) 1.

End sample.

End line.

(* ===================================================================== *)
(** * [glv/ui/history.py] *)
(* ===================================================================== *)

Module history.

(** ** Strings: Python's [needle in haystack] *)

Fixpoint startswith (needle haystack : string) : bool :=
  match needle, haystack with
  | EmptyString, _ => true
  | String a needle', String b haystack' =>
      Ascii.eqb a b && startswith needle' haystack'
  | String _ _, EmptyString => false
  end.

Fixpoint str_in (needle haystack : string) : bool :=
  startswith needle haystack ||
  match haystack with
  | EmptyString => false
  | String _ haystack' => str_in needle haystack'
  end.

(** ** The collaborators' data *)

(** Modelled from the spec: [glv.commit.Commit] is not among the sources.
    A record carries the attributes [history.py] reads from it: the short
    id, subject, author name and branch labels the search looks at, the
    relative author date shown in its row, its nesting [level], whether it
    is a merge ([is_merge], the foldable kinds) and whether it is a link to
    another row. *)
Record Commit : Type := mkCommit {
  short_id : string;
  subject : string;
  author_name : string;
  author_rel_date : string;
  branches : list string;
  level : Z;
  is_merge : bool;
  is_commit_link : bool
}.

(** [prompt_toolkit]'s [SearchDirection], [SearchState] and [Point]. *)
Inductive SearchDirection : Type := FORWARD | BACKWARD.

Record SearchState : Type := mkSearchState {
  text : string;
  direction : SearchDirection
}.

Record Point : Type := mkPoint { x : Z; y : Z }.

(** Modelled from the spec: [glv.ui.log_entry.LogEntry] is not among the
    sources. [LogEntry(commit, working_dir, search_state)] keeps its three
    arguments; the [author_name] and [author_rel_date] it shows are the
    commit's. *)
Record LogEntry : Type := mkLogEntry {
  entry_commit : Commit;
  entry_working_dir : string;
  entry_search_state : option SearchState
}.

(** Modelled from the spec: [glv.Repo] is not among the sources. Section 6
    gives the two services [History] uses: the count of commits reachable
    from a revision, and the first-parent sequence of a revision with a
    skip offset, a maximum count and a path filter
    ([iter_commits rev_range skip max_count paths]). *)
Record Repo : Type := mkRepo {
  count_commits : string -> Z;
  iter_commits : string -> nat -> Z -> list string -> list Commit
}.

(** The arguments of one [iter_commits] call. *)
Record Fetch : Type := mkFetch {
  fetch_rev_range : string;
  fetch_skip : nat;
  fetch_max_count : Z;
  fetch_paths : list string
}.

(** ** The [History] object

    [revision_0] is [self.revision[0]], which [__init__] reads before it
    builds anything else. [fetches] is not an attribute: it records the
    [iter_commits] calls issued so far, latest first, so that a fetch is
    visible even when it yields nothing. The search thread handle is left
    out, as are the calls to [LOG] and [STATUS]. *)
Record History : Type := mkHistory {
  working_dir : string;
  revision_0 : string;
  files : list string;
  date_max_len : nat;
  name_max_len : nat;
  _repo : Repo;
  line_count : Z;
  commit_list : list Commit;
  log_entry_list : list LogEntry;
  search_state : option SearchState;
  cursor_position : Point;
  fetches : list Fetch
}.

Definition set_date_max_len (n : nat) (h : History) : History :=
  mkHistory (working_dir h) (revision_0 h) (files h) n (name_max_len h)
    (_repo h) (line_count h) (commit_list h) (log_entry_list h)
    (search_state h) (cursor_position h) (fetches h).

Definition set_name_max_len (n : nat) (h : History) : History :=
  mkHistory (working_dir h) (revision_0 h) (files h) (date_max_len h) n
    (_repo h) (line_count h) (commit_list h) (log_entry_list h)
    (search_state h) (cursor_position h) (fetches h).

Definition set_line_count (n : Z) (h : History) : History :=
  mkHistory (working_dir h) (revision_0 h) (files h) (date_max_len h)
    (name_max_len h) (_repo h) n (commit_list h) (log_entry_list h)
    (search_state h) (cursor_position h) (fetches h).

Definition set_commit_list (l : list Commit) (h : History) : History :=
  mkHistory (working_dir h) (revision_0 h) (files h) (date_max_len h)
    (name_max_len h) (_repo h) (line_count h) l (log_entry_list h)
    (search_state h) (cursor_position h) (fetches h).

Definition set_log_entry_list (l : list LogEntry) (h : History) : History :=
  mkHistory (working_dir h) (revision_0 h) (files h) (date_max_len h)
    (name_max_len h) (_repo h) (line_count h) (commit_list h) l
    (search_state h) (cursor_position h) (fetches h).

Definition set_search_state (s : option SearchState) (h : History) : History :=
  mkHistory (working_dir h) (revision_0 h) (files h) (date_max_len h)
    (name_max_len h) (_repo h) (line_count h) (commit_list h)
    (log_entry_list h) s (cursor_position h) (fetches h).

Definition set_cursor_position (p : Point) (h : History) : History :=
  mkHistory (working_dir h) (revision_0 h) (files h) (date_max_len h)
    (name_max_len h) (_repo h) (line_count h) (commit_list h)
    (log_entry_list h) (search_state h) p (fetches h).

Definition record_fetch (f : Fetch) (h : History) : History :=
  mkHistory (working_dir h) (revision_0 h) (files h) (date_max_len h)
    (name_max_len h) (_repo h) (line_count h) (commit_list h)
    (log_entry_list h) (search_state h) (cursor_position h) (f :: fetches h).

(** ** Exceptions and Python list operations *)

Inductive exn : Type := ValueError | IndexError.

(** A call either returns a value or raises; both leave a state behind. *)
Inductive outcome (A : Type) : Type :=
  | Return (a : A) (h : History)
  | Raise (e : exn) (h : History).
Arguments Return {A} a h.
Arguments Raise {A} e h.

Definition state_of {A : Type} (o : outcome A) : History :=
  match o with
  | Return _ h => h
  | Raise _ h => h
  end.

(** [l[index]] for a Python [int]: a negative index counts from the end,
    anything out of range is an [IndexError] ([None]). *)
Definition getitem {A : Type} (l : list A) (index : Z) : option A :=
  if 0 <=? index then l !! Z.to_nat index
  else if - Z.of_nat (length l) <=? index
       then l !! Z.to_nat (Z.of_nat (length l) + index)
       else None.

(** [l.insert(i, x)] for [0 <= i]: past the end it appends. *)
Definition list_insert_at {A : Type} (i : nat) (x : A) (l : list A) : list A :=
  take i l ++ x :: drop i l.

(** [del l[pos]] for [0 <= pos]: an [IndexError] when out of range. *)
Definition del {A : Type} (pos : nat) (l : list A) : option (list A) :=
  if (pos <? length l)%nat then Some (delete pos l) else None.

(** The two running maxima, updated the same way in [fill_up] and in
    [_unfold]. *)
Definition note_entry (entry : LogEntry) (h : History) : History :=
  let h1 :=
    if (date_max_len h <? String.length (author_rel_date (entry_commit entry)))%nat
    then set_date_max_len (String.length (author_rel_date (entry_commit entry))) h
    else h in
  if (name_max_len h1 <? String.length (author_name (entry_commit entry)))%nat
  then set_name_max_len (String.length (author_name (entry_commit entry))) h1
  else h1.

(** ** [History.fill_up] *)

(** The body of [for commit in commits]. *)
Definition fill_up_step (h : History) (commit : Commit) : History :=
  let h1 := set_commit_list (commit_list h ++ [commit]) h in
  let entry := mkLogEntry commit (working_dir h1) (search_state h1) in
  let h2 := set_log_entry_list (log_entry_list h1 ++ [entry]) h1 in
  note_entry entry h2.

Definition fill_up (amount : Z) (h : History) : outcome Z :=
  if amount <=? 0 then Raise ValueError h
  else
    let skip :=
      length (List.filter (fun x => level x =? 0) (commit_list h)) in
    let commits := iter_commits (_repo h) (revision_0 h) skip amount (files h) in
    let h1 := record_fetch (mkFetch (revision_0 h) skip amount (files h)) h in
    Return (Z.of_nat (length commits)) (fold_left fill_up_step commits h1).

(** ** [History._fold]

    The loop runs over the slice [commit_list[pos:]], a copy taken before
    the first deletion, and deletes at [pos] in both lists. *)
Fixpoint _fold_loop (snapshot : list Commit) (pos : nat) (commit : Commit)
    (h : History) : outcome unit :=
  match snapshot with
  | [] => Return tt h
  | cur :: snapshot' =>
      if level commit <? level cur then
        match del pos (commit_list h) with
        | None => Raise IndexError h
        | Some cl =>
            let h1 := set_commit_list cl h in
            match del pos (log_entry_list h1) with
            | None => Raise IndexError h1
            | Some ll => _fold_loop snapshot' pos commit (set_log_entry_list ll h1)
            end
        end
      else Return tt h
  end.

Definition _fold (pos : nat) (commit : Commit) (h : History) : outcome unit :=
  _fold_loop (drop pos (commit_list h)) pos commit h.

(** [History.current]. *)
Definition current (index : Z) (h : History) : option Commit :=
  getitem (commit_list h) index.

(** ** The search predicates

    The forward loop tests [short_id], [subject], [author_name] and every
    element of [branches]; the backward loop tests the first three. *)
Definition forward_match (needle : string) (commit : Commit) : bool :=
  str_in needle (short_id commit) || str_in needle (subject commit) ||
  str_in needle (author_name commit) ||
  existsb (fun haystack => str_in needle haystack) (branches commit).

Definition backward_match (needle : string) (commit : Commit) : bool :=
  str_in needle (short_id commit) || str_in needle (subject commit) ||
  str_in needle (author_name commit).

(** The [while index >= 0] loop of the backward search. It reads the list
    and nothing else; the result is [(new_position, index)] at loop exit. *)
Fixpoint backward_loop (fuel : nat) (needle : string) (cl : list Commit)
    (new_position index : Z) : option (exn + Z * Z) :=
  match fuel with
  | O => None
  | S fuel' =>
      if 0 <=? index then
        match getitem cl index with
        | None => Some (inl IndexError)
        | Some commit =>
            if backward_match needle commit then Some (inr (index, index))
            else backward_loop fuel' needle cl new_position (index - 1)
        end
      else Some (inr (new_position, index))
  end.

Section Collaborators.

(** Modelled from the spec: [glv.commit.child_history], [glv.commit.is_folded]
    and [glv.utils.screen_height] are not among the sources. They are taken
    as they are called: the side-branch records of a commit, the fold query
    on a list and a row, and the height of the screen. *)
Variable child_history : string -> Commit -> list Commit.
Variable is_folded : list Commit -> nat -> bool.
Variable screen_height : Z.

(** ** [History._unfold] *)

(** The body of [for _ in child_history(...)], with the running [index]. *)
Definition _unfold_step (line_number : nat) (acc : History * nat)
    (c : Commit) : History * nat :=
  let '(h, index) := acc in
  let entry := mkLogEntry c (working_dir h) (search_state h) in
  let h1 := note_entry entry h in
  let h2 :=
    set_commit_list
      (list_insert_at (line_number + index) c (commit_list h1)) h1 in
  let h3 :=
    set_log_entry_list
      (list_insert_at (line_number + index) entry (log_entry_list h2)) h2 in
  (h3, S index).

Definition _unfold (line_number : nat) (commit : Commit) (h : History)
    : History :=
  let '(h1, index) :=
    fold_left (_unfold_step line_number)
      (child_history (working_dir h) commit) (h, 1%nat) in
  set_line_count (line_count h1 + Z.of_nat index) h1.

(** ** [History.toggle_fold]

    [line_number] is a row of the view, so it is not negative. *)
Definition toggle_fold (line_number : nat) (h : History) : outcome unit :=
  match commit_list h !! line_number with
  | None => Raise IndexError h
  | Some commit =>
      if negb (is_merge commit) then Return tt h
      else if is_folded (commit_list h) line_number
           then Return tt (_unfold line_number commit h)
           else _fold (line_number + 1) commit h
  end.

(** ** [History.search] *)

(** The [while True] loop of the forward search; [None] is "fuel
    exhausted". The result is [(new_position, index)] at the [break]. *)
Fixpoint forward_loop (fuel : nat) (needle : string)
    (new_position index : Z) (h : History) : option (outcome (Z * Z)) :=
  match fuel with
  | O => None
  | S fuel' =>
      let test (commit : Commit) (h' : History) :=
        if forward_match needle commit then Some (Return (index, index) h')
        else forward_loop fuel' needle new_position (index + 1) h' in
      match getitem (commit_list h) index with
      | Some commit => test commit h
      | None =>
          match fill_up screen_height h with
          | Raise e h' => Some (Raise e h')
          | Return fetched h' =>
              if fetched =? 0 then Some (Return (new_position, index) h')
              else
                match getitem (commit_list h') index with
                | None => Some (Raise IndexError h')
                | Some commit => test commit h'
                end
          end
      end
  end.

(** The last statement of [search]: the cursor moves when the position
    found differs from the row it is on. *)
Definition reposition (found : Z * Z) (h : History) : History :=
  let '(new_position, index) := found in
  if new_position =? y (cursor_position h) then h
  else set_cursor_position (mkPoint (x (cursor_position h)) index) h.

Definition search (fuel : nat) (search_state : SearchState)
    (include_current_position : bool) (count : Z) (h : History)
    : option (outcome unit) :=
  let h := set_search_state (Some search_state) h in
  let index := y (cursor_position h) in
  let new_position := y (cursor_position h) in
  let needle := text search_state in
  match direction search_state with
  | FORWARD =>
      let index := if negb include_current_position then index + 1 else index in
      match forward_loop fuel needle new_position index h with
      | None => None
      | Some (Raise e h') => Some (Raise e h')
      | Some (Return found h') => Some (Return tt (reposition found h'))
      end
  | BACKWARD =>
      let index :=
        if negb include_current_position && (0 <? index) then index - 1
        else index in
      match backward_loop fuel needle (commit_list h) new_position index with
      | None => None
      | Some (inl e) => Some (Raise e h)
      | Some (inr found) => Some (Return tt (reposition found h))
      end
  end.

(** ** [History.__init__], after the arguments are parsed *)
Definition __init__ (repo : Repo) (working_dir revision_0 : string)
    (files : list string) : outcome Z :=
  fill_up screen_height
    (mkHistory working_dir revision_0 files 0 0 repo
       (count_commits repo revision_0) [] [] None (mkPoint 0 0) []).

End Collaborators.

(** ** Notions the statements use *)

(** Modelled from the spec: section 3 lets an unfolded commit own the run
    of deeper records right after it, so a folded commit is one whose next
    record, when there is one, is not deeper. *)
Definition folded_at (cl : list Commit) (i : nat) : Prop :=
  match cl !! i, cl !! S i with
  | Some c, Some next => level next <= level c
  | Some _, None => True
  | None, _ => False
  end.

(** Modelled from the spec: the contract of [iter_commits] in section 6.
    [log] is the first-parent sequence of the revision restricted to the
    paths; a call returns its window. *)
Definition first_parent_log (repo : Repo) (rev_range : string)
    (paths : list string) (log : list Commit) : Prop :=
  forall (skip : nat) (max_count : Z),
    0 < max_count ->
    iter_commits repo rev_range skip max_count paths =
      take (Z.to_nat max_count) (drop skip log).

(** A rest that ends the run of records deeper than [c]: it is empty or
    starts with a record whose level is at most that of [c]. *)
Definition stops_run (c : Commit) (rest : list Commit) : Prop :=
  match rest with
  | [] => True
  | x :: _ => level x <= level c
  end.



(** The records of the top-level walk in a list. *)
Definition top_level (cl : list Commit) : list Commit :=
  List.filter (fun x => level x =? 0) cl.

(** ** [History.get_line] and [History._render_commit] *)

(** One [(style, text)] pair of a rendered row. *)
Definition Fragment : Type := (string * string)%type.

(** An element of the list [tmp]: a single tuple, or a list of them. *)
Inductive Piece : Type :=
  | Single (t : Fragment)
  | Several (l : list Fragment).

(** [l[index] = x] for a position [getitem] finds. *)
Definition setitem {A : Type} (l : list A) (index : Z) (x : A) : list A :=
  if 0 <=? index then <[Z.to_nat index := x]> l
  else <[Z.to_nat (Z.of_nat (length l) + index) := x]> l.

(** The body of [for sth in tmp]. *)
Definition add_piece (result : list Fragment) (sth : Piece) : list Fragment :=
  match sth with
  | Single t => result ++ [t; (EmptyString, " "%string)]
  | Several l => (result ++ l) ++ [(EmptyString, " "%string)]
  end.

(** [('reverse ' + x[0], x[1])]. *)
Definition reversed (x : Fragment) : Fragment :=
  (("reverse " ++ fst x)%string, snd x).

Section Rendering.

(** Modelled from the spec: the coloured properties of
    [glv.ui.log_entry.LogEntry] are not among the sources. [columns entry
    date_max_len name_max_len] is the list [tmp] that [_render_commit]
    builds from them: eight pieces, each a tuple or a list of tuples. *)
Variable columns : LogEntry -> nat -> nat -> list Piece.

(** The [except KeyError] branch cannot run for a list: a missing entry
    is an [IndexError], which is not caught. *)
Definition _render_commit (commit : Commit) (line_number : Z) (h : History)
    : outcome (list Fragment) :=
  match getitem (log_entry_list h) line_number with
  | None => Raise IndexError h
  | Some entry =>
      let entry :=
        mkLogEntry (entry_commit entry) (entry_working_dir entry)
          (search_state h) in
      let h1 :=
        set_log_entry_list (setitem (log_entry_list h) line_number entry) h in
      let tmp := columns entry (date_max_len h1) (name_max_len h1) in
      let result := fold_left add_piece tmp [] in
      let result :=
        if line_number =? y (cursor_position h1) then map reversed result
        else result in
      Return (map (fun x => (fst x, snd x)) result) h1
  end.

Definition get_line (line_number : Z) (h : History)
    : outcome (list Fragment) :=
  let length := Z.of_nat (length (commit_list h)) in
  let filled :=
    if length - 1 <? line_number then fill_up (line_number - length + 1) h
    else Return 0 h in
  match filled with
  | Raise e h1 => Raise e h1
  | Return _ h1 =>
      match getitem (commit_list h1) line_number with
      | None => Return [(EmptyString, EmptyString)] h1
      | Some commit => _render_commit commit line_number h1
      end
  end.

End Rendering.

(** ** [HistoryControl]

    The control holds the [History] as its [content]; its methods are
    given as functions of that object. *)

Definition current_line (h : History) : Z := y (cursor_position h).

Definition move_cursor_down (h : History) : History :=
  let old_point := cursor_position h in
  if y old_point + 1 <? line_count h
  then set_cursor_position (mkPoint (x old_point) (y old_point + 1)) h
  else h.

Definition move_cursor_up (h : History) : History :=
  let old_point := cursor_position h in
  if 0 <? y old_point
  then set_cursor_position (mkPoint (x old_point) (y old_point - 1)) h
  else h.

Definition goto_line (line_number : Z) (h : History) : History :=
  let line_number :=
    if line_number <? 0 then
      let line_number := line_count h + 1 - line_number in
      if line_number <? 0 then 0 else line_number
    else if line_count h <=? line_number then line_count h - 1
    else line_number in
  if current_line h =? line_number then h
  else set_cursor_position (mkPoint (x (cursor_position h)) line_number) h.

Definition goto_last (h : History) : History :=
  let old_point := cursor_position h in
  if y old_point <? line_count h
  then set_cursor_position (mkPoint (x old_point) (line_count h - 1)) h
  else h.

(** [is_foldable], [is_child] and [is_link]: [None] is the [IndexError]
    of [commit_list[line_number]]. *)
Definition is_foldable (line_number : Z) (h : History) : option bool :=
  match getitem (commit_list h) line_number with
  | None => None
  | Some commit => Some (is_merge commit)
  end.

Definition is_child (line_number : Z) (h : History) : option bool :=
  match getitem (commit_list h) line_number with
  | None => None
  | Some commit => Some (0 <? level commit)
  end.

Definition is_link (line_number : Z) (h : History) : option bool :=
  match getitem (commit_list h) line_number with
  | None => None
  | Some commit => Some (is_commit_link commit)
  end.

(** The [while i >= 0] loop of [go_to_parent]: the row found, if any. *)
Fixpoint parent_loop (fuel : nat) (cl : list Commit) (commit : Commit)
    (i : Z) : option (exn + option Z) :=
  match fuel with
  | O => None
  | S fuel' =>
      if 0 <=? i then
        match getitem cl i with
        | None => Some (inl IndexError)
        | Some candidat =>
            if level candidat <? level commit then Some (inr (Some i))
            else parent_loop fuel' cl commit (i - 1)
        end
      else Some (inr None)
  end.

Definition go_to_parent (fuel : nat) (line_number : Z) (h : History)
    : option (outcome unit) :=
  match getitem (commit_list h) line_number with
  | None => Some (Raise IndexError h)
  | Some commit =>
      if (0 <? level commit) && (0 <? line_number) then
        match parent_loop fuel (commit_list h) commit (line_number - 1) with
        | None => None
        | Some (inl e) => Some (Raise e h)
        | Some (inr (Some i)) => Some (Return tt (goto_line i h))
        | Some (inr None) => Some (Return tt h)
        end
      else Some (Return tt h)
  end.

Section Control.

(** Modelled from the spec: [glv.commit.is_folded] and [glv.commit.follow]
    are not among the sources. [follow working_dir commit_list line_number]
    is given the list itself, so it is taken to leave a list behind and to
    return a row, or to raise [CommitNotFound] ([None]). *)
Variable is_folded : list Commit -> nat -> bool.
Variable follow : string -> list Commit -> Z -> list Commit * option Z.

(** [HistoryControl.is_folded], for a row of the view. *)
Definition HistoryControl_is_folded (line_number : nat) (h : History)
    : option bool :=
  match commit_list h !! line_number with
  | None => None
  | Some commit =>
      if is_merge commit then Some (is_folded (commit_list h) line_number)
      else Some false
  end.

(** The body of the loop under [# sync commit_list with log_entry_list]. *)
Definition sync_step (h : History) (commit : Commit) : History :=
  set_log_entry_list
    (log_entry_list h ++
     [mkLogEntry commit (working_dir h) (search_state h)]) h.

Definition go_to_link (line_number : Z) (h : History) : History :=
  match follow (working_dir h) (commit_list h) line_number with
  | (cl, None) => set_commit_list cl h                (* CommitNotFound: pass *)
  | (cl, Some result) =>
      let h1 := set_commit_list cl h in
      let h2 :=
        if Z.of_nat (length (log_entry_list h1)) <=? result then
          let pos := length (log_entry_list h1) in
          fold_left sync_step (drop pos (commit_list h1)) h1
        else h1 in
      goto_line result h2
  end.

End Control.

(** ** More notions the statements use *)

(** Every row has its log entry, and it is the entry of that row's
    commit. *)
Definition in_step (h : History) : Prop :=
  map entry_commit (log_entry_list h) = commit_list h.

(** The two running maxima cover every record of the sequence. *)
Definition widths_cover (h : History) : Prop :=
  Forall
    (fun c =>
       (String.length (author_rel_date c) <= date_max_len h)%nat /\
       (String.length (author_name c) <= name_max_len h)%nat)
    (commit_list h).

(** A bound on the rounds of a forward search from [index]: the commits
    of the log not yet fetched, and the rows materialized after [index]. *)
Definition forward_budget (log : list Commit) (h : History) (index : Z)
    : nat :=
  (length log - length (top_level (commit_list h))) +
  (length (commit_list h) - Z.to_nat index).

(** The row a forward search tests first. *)
Definition forward_start (include_current_position : bool) (h : History)
    : Z :=
  if negb include_current_position then y (cursor_position h) + 1
  else y (cursor_position h).

(** Row [row] is the first one a forward scan from [start] accepts. *)
Definition first_forward_match (needle : string) (cl : list Commit)
    (start row : Z) : Prop :=
  start <= row /\
  (exists c, getitem cl row = Some c /\ forward_match needle c = true) /\
  (forall j, start <= j < row ->
     exists c, getitem cl j = Some c /\ forward_match needle c = false).

(** Row [i] is the nearest row before [row] that is shallower than [c]. *)
Definition nearest_shallower (cl : list Commit) (c : Commit) (row i : Z)
    : Prop :=
  0 <= i < row /\
  (exists p, getitem cl i = Some p /\ level p < level c) /\
  (forall j, i < j < row ->
     exists q, getitem cl j = Some q /\ level c <= level q).

(** ** A small history

    The mainline is [f], [c], [b], [a] with [c] a merge; unfolding [c]
    shows [e] and [d] one level down. [b] carries the branch label
    [release]. *)
Module sample.
Local Open Scope string_scope.
Local Open Scope list_scope.

Definition cF : Commit :=
  mkCommit "f3a9c21" "Add the viewer" "ann" "2 days" [] 0 false false.
Definition cC : Commit :=
  mkCommit "c71e0b4" "Merge the side work" "bob" "3 days" [] 0 true false.
Definition cB : Commit :=
  mkCommit "b5d2f80" "Base of the work" "ann" "5 days" ["release"] 0 false false.
Definition cA : Commit :=
  mkCommit "a0c4e6d" "Initial commit" "ann" "2 weeks" [] 0 false false.
Definition cE : Commit :=
  mkCommit "e92b7f5" "Second side step" "carol" "4 days" [] 1 false false.
Definition cD : Commit :=
  mkCommit "d18a3c7" "First side step" "carol" "4 days" [] 1 false false.

Definition log : list Commit := [cF; cC; cB; cA].

Definition repo : Repo :=
  mkRepo (fun _ => 6)
    (fun _ skip max_count _ => take (Z.to_nat max_count) (drop skip log)).

Definition child_history (working_dir : string) (commit : Commit)
    : list Commit :=
  if is_merge commit then [cE; cD] else [].

Definition is_folded (cl : list Commit) (pos : nat) : bool :=
  match cl !! pos, cl !! S pos with
  | Some c, Some next => (level next <=? level c)%Z
  | _, _ => true
  end.

(** The object before its first fetch, with two rows, and with all four. *)
Definition empty : History :=
  mkHistory "/repo" "HEAD" [] 0 0 repo 6 [] [] None (mkPoint 0 0) [].

Definition two_rows : History := state_of (fill_up 2 empty).

Definition loaded : History := state_of (fill_up 4 empty).

Definition unfolded : History := _unfold child_history 1 cC loaded.

Definition at_row (row : Z) (h : History) : History :=
  set_cursor_position (mkPoint 0 row) h.

(** A rendering with two pieces: the short id, then subject and author. *)
Definition columns (entry : LogEntry) (date_max_len name_max_len : nat)
    : list Piece :=
  [Single ("ansiyellow", short_id (entry_commit entry));
   Several [("bold", subject (entry_commit entry));
            ("", author_name (entry_commit entry))]].

(** A [follow] that finds the link target two rows further down, after
    loading the rest of the log into the list it is given. *)
Definition follow (working_dir : string) (cl : list Commit)
    (line_number : Z) : list Commit * option Z :=
  (cl ++ drop (length cl) log, Some (line_number + 2)).

End sample.

End history.

(* ===================================================================== *)
(** * [pygit_viewer/main.py] *)
(* ===================================================================== *)

Module main.
Import line.

(** The module-level state the key binding works on: the list [HISTORY]
    and the text of [TEXTFIELD]. *)
Record UI : Type := mkUI {
  HISTORY : list Commit;
  text : string
}.

(** A call ends normally, or with an exception, or the model runs out of
    fuel; the first two leave a state behind. *)
Inductive outcome : Type :=
  | Done (ui : UI)
  | Raised (e : exn) (ui : UI)
  | Fuel.

(** [sep.join(lines)]. *)
Fixpoint join (sep : string) (lines : list string) : string :=
  match lines with
  | [] => EmptyString
  | [a] => a
  | a :: lines' => (a ++ sep ++ join sep lines')%string
  end.

(** [n * s] for a string [s]: empty when [n] is not positive. *)
Fixpoint str_repeat (n : nat) (s : string) : string :=
  match n with
  | O => EmptyString
  | S n' => (s ++ str_repeat n' s)%string
  end.

Definition newline : string := String (ascii_of_nat 10) EmptyString.

(** What a row holds that no call changes: its class, its git commit and
    its level. [fold] and [unfold] change the flag of one object in
    place, and a row that holds that object as its parent context sees
    the change; the records here are values, and one that was built
    earlier keeps the flag its parent context had then. What is said
    about the rows a call leaves in place is therefore said about this
    part of them. *)
Definition settled (c : Commit) : CommitClass * GitCommit * Z :=
  (cls c, _commit c, level c).

(** The [while line.child_log()] loop of [fold_close]. Calling the
    generator function gives a generator object, which is true whatever
    it would yield, so the loop only ends when one of the two [del]
    statements raises [IndexError]; the result is [HISTORY] at that
    point. *)
Fixpoint fold_close_loop (fuel : nat) (lines : list string)
    (H : list Commit) (index : nat) : option (list Commit) :=
  match fuel with
  | O => None
  | S fuel' =>
      match history.del index lines with
      | None => Some H
      | Some lines' =>
          match history.del index H with
          | None => Some H
          | Some H' => fold_close_loop fuel' lines' H' index
          end
      end
  end.

Section Toolkit.

(** [str.splitlines] is Python's; [format_commit] joins the icon of the
    commit with [str(line)], which reads the clock. Both are taken as
    they are called. *)
Variable splitlines : string -> list string.
Variable format_commit : Commit -> string.

(** [fold_close(line, index)], called with [line] the object at
    [HISTORY[index]]: [line.fold()] changes that object in place. The
    assignment to [TEXTFIELD.text] after the loop is never reached. *)
Definition fold_close (fuel : nat) (line : Commit) (index : nat) (ui : UI)
    : outcome :=
  let lines := splitlines (text ui) in
  let H := <[index := fold line]> (HISTORY ui) in
  let index := (index + 1)%nat in
  match fold_close_loop fuel lines H index with
  | None => Fuel
  | Some H' => Raised IndexError (mkUI H' (text ui))
  end.

(** The body of [for commit in start.child_log()]. *)
Definition fold_open_step (acc : list Commit * list string * nat)
    (commit : Commit) : list Commit * list string * nat :=
  let '(H, lines, index) := acc in
  let level := str_repeat (Z.to_nat (level commit)) "  " in
  let H := history.list_insert_at index commit H in
  let msg := (level ++ format_commit commit)%string in
  let lines := history.list_insert_at (index + 1) msg lines in
  let H := history.list_insert_at (index + 1) commit H in
  (H, lines, (index + 1)%nat).

(** [fold_open(start, index)], called with [start] the object at
    [HISTORY[index]]: [start.unfold()] changes that object in place. *)
Definition fold_open (fuel : nat) (repo : Repo) (start : Commit)
    (index : nat) (ui : UI) : outcome :=
  let lines := splitlines (text ui) in
  let start := unfold start in
  let H := <[index := start]> (HISTORY ui) in
  match child_log fuel repo start with
  | OutOfFuel => Fuel
  | Raise e => Raised e (mkUI H (text ui))
  | Ok cs =>
      let '(H', lines', _) := fold_left fold_open_step cs (H, lines, index) in
      Done (mkUI H' (join newline lines'))
  end.

(** The [enter] key binding; [row] is the row the cursor is on. Saving
    and restoring the cursor position of the buffer is left out. *)
Definition toggle_fold (fuel : nat) (repo : Repo) (row : nat) (ui : UI)
    : outcome :=
  match HISTORY ui !! row with
  | None => Raised IndexError ui
  | Some line =>
      if isinstance_Foldable line then
        match is_folded line with
        | Some true => fold_open fuel repo line row ui
        | Some false => fold_close fuel line row ui
        | None => Raised AttributeError ui
        end
      else Done ui
  end.

End Toolkit.

(** ** A small screen

    The rows of the sample history of [line], walked from its head, one
    line of text for each. *)
Module sample.
Local Open Scope string_scope.
Local Open Scope list_scope.

Definition rows : list Commit :=
  match walker 2 line.sample.repo StartNone EndNone None with
  | Ok cs => cs
  | _ => []
  end.

Definition splitlines (text : string) : list string :=
  ["f"; "c"; "b1"; "b"; "a"].

Definition format_commit (c : Commit) : string := oid c.

Definition screen : UI := mkUI rows "f c b1 b a".

End sample.

End main.

(* ===================================================================== *)
(** * Properties of [pygit_viewer/line.py] *)
(* ===================================================================== *)

Module line_facts.
Import line.

(** What one call of [to_commit] stores in the wrapper it returns. *)
Lemma to_commit_stores (fuel : nat) (repo : Repo) (g : GitCommit)
    (parent : option Commit) (c : Commit) :
  to_commit fuel repo g parent = Some c ->
  _commit c = g /\ _parent c = parent /\ level c = context_level parent.
Proof.
  destruct fuel as [|fuel]; simpl; [discriminate|].
  assert (Hl : match parent with
               | Some _ => _calculate_level parent
               | None => 1
               end = context_level parent).
  { destruct parent as [p|]; simpl; [|reflexivity].
    destruct (isinstance_Foldable p); lia. }
  rewrite Hl.
  destruct (git_parents g) as [[|p0 [|p1 [|p2 ps]]]|];
    try (intros [= <-]; simpl; auto).
  destruct (merge_base_with _ repo p0 p1) as [[m|]|];
    intros [= <-]; simpl; auto.
Qed.

(** The class [to_commit] picks, read off the number of parents. *)
Lemma to_commit_class (fuel : nat) (repo : Repo) (g : GitCommit)
    (parent : option Commit) (c : Commit) :
  to_commit fuel repo g parent = Some c ->
  cls c =
    match git_parents g with
    | None => LastCommit
    | Some [] => InitialCommit
    | Some [_] => PlainCommit
    | Some [p0; p1] =>
        match git_merge_base (_repo repo) (git_id p0) (git_id p1) with
        | None => Subtree
        | Some _ => Merge
        end
    | Some (_ :: _ :: _ :: _) => Octopus
    end.
Proof.
  destruct fuel as [|fuel]; simpl; [discriminate|].
  destruct (git_parents g) as [[|p0 [|p1 [|p2 ps]]]|];
    try (intros [= <-]; reflexivity).
  unfold merge_base_with.
  destruct (git_merge_base (_repo repo) (git_id p0) (git_id p1)) as [m|].
  - destruct (to_commit fuel repo _ None); intros [= <-]; reflexivity.
  - intros [= <-]; reflexivity.
Qed.

(** With a well-founded history, [to_commit] returns once it has enough
    fuel, whatever the parent context. *)
Lemma to_commit_returns (repo : Repo) (g : GitCommit) :
  Acc (merge_base_step repo) g ->
  exists n : nat, forall (fuel : nat) (parent : option Commit),
    (n <= fuel)%nat -> exists c, to_commit fuel repo g parent = Some c.
Proof.
  induction 1 as [g _ IH].
  destruct (git_parents g) as [[|p0 [|p1 [|p2 ps]]]|] eqn:Hp.
  1,2,4,5: exists 1%nat; intros [|fuel] parent Hf; [lia|];
           simpl; rewrite Hp; eauto.
  destruct (git_merge_base (_repo repo) (git_id p0) (git_id p1)) as [m|] eqn:Hm.
  - destruct (IH (git_getitem (_repo repo) m)) as [n Hn].
    { exists p0, p1, m. auto. }
    exists (S n). intros [|fuel] parent Hf; [lia|].
    simpl. rewrite Hp. unfold merge_base_with. rewrite Hm.
    destruct (Hn fuel None) as [c ->]; [lia|]. eauto.
  - exists 1%nat. intros [|fuel] parent Hf; [lia|].
    simpl. rewrite Hp. unfold merge_base_with. rewrite Hm. eauto.
Qed.

(** One bound on the fuel serves a whole list of commits. *)
Lemma to_commit_returns_all (repo : Repo) (gits : list GitCommit) :
  well_founded (merge_base_step repo) ->
  exists n : nat, forall (fuel : nat) (g : GitCommit) (parent : option Commit),
    (n <= fuel)%nat -> In g gits ->
    exists c, to_commit fuel repo g parent = Some c.
Proof.
  intros Hwf. induction gits as [|g gits [n Hn]].
  - exists 0%nat. intros ? ? ? ? [].
  - destruct (to_commit_returns repo g (Hwf g)) as [m Hm].
    exists (Nat.max n m). intros fuel g' parent Hf [<-|Hin].
    + apply Hm. lia.
    + apply Hn; [lia|assumption].
Qed.

(** The sample history is well-founded: the only merge base is [b]. *)
Lemma sample_well_founded : well_founded (merge_base_step sample.repo).
Proof.
  assert (HB : Acc (merge_base_step sample.repo) sample.gB).
  { constructor. intros g' (p0 & p1 & m & Hp & _). discriminate Hp. }
  intros g. constructor. intros g' (p0 & p1 & m & _ & Hm & ->).
  simpl in Hm. unfold sample.sample_merge_base in Hm.
  destruct (_ || _); [|discriminate]. injection Hm as <-. exact HB.
Qed.

(** The sample history, walked from its head and unfolded at [c]. *)
Example sample_top_level_walk :
  match walker 2 sample.repo StartNone EndNone None with
  | Ok cs => map (fun c => (oid c, cls c, level c)) cs
  | _ => []
  end =
  [("f"%string, PlainCommit, 1); ("c"%string, Merge, 1);
   ("b1"%string, PlainCommit, 2); ("b"%string, PlainCommit, 2);
   ("a"%string, InitialCommit, 2)].
Proof. reflexivity. Qed.

Example sample_child_log :
  match to_commit 2 sample.repo sample.gC None with
  | Some c =>
      match child_log 2 sample.repo c with
      | Ok cs => map (fun c => (oid c, cls c, level c)) cs
      | _ => []
      end
  | None => []
  end =
  [("e"%string, Merge, 2); ("e1"%string, PlainCommit, 3)].
Proof. reflexivity. Qed.

(** ** Levels along a walk *)

Lemma context_level_ge (p : Commit) : level p <= context_level (Some p).
Proof. simpl. destruct (isinstance_Foldable p); lia. Qed.

Lemma levels_chain_ge (lo : Z) (cs : list Commit) :
  forall prev : Commit,
    lo <= level prev -> levels_chain prev cs ->
    Forall (fun c => lo <= level c) cs.
Proof.
  induction cs as [|c cs IH]; intros prev Hlo Hch; constructor.
  - destruct Hch as [Hc _]. pose proof (context_level_ge prev). lia.
  - destruct Hch as [Hc Hch]. apply (IH c); [|exact Hch].
    pose proof (context_level_ge prev). lia.
Qed.

Lemma walker_rest_chain (fuel : nat) (repo : Repo) (gits : list GitCommit) :
  forall (parent : Commit) (cs : list Commit),
    walker_rest fuel repo gits parent = Some cs -> levels_chain parent cs.
Proof.
  induction gits as [|g gits IH]; intros parent cs; simpl.
  - intros [= <-]. exact I.
  - destruct (to_commit fuel repo g (Some parent)) as [tmp|] eqn:Htmp;
      [|discriminate].
    destruct (walker_rest fuel repo gits tmp) as [rest|] eqn:Hrest;
      [|discriminate].
    intros [= <-]. split.
    + apply to_commit_stores in Htmp. tauto.
    + apply IH. exact Hrest.
Qed.

Lemma walker_rest_returns (fuel : nat) (repo : Repo) (gits : list GitCommit) :
  (forall g p, In g gits -> exists c, to_commit fuel repo g p = Some c) ->
  forall parent : Commit,
    exists cs, walker_rest fuel repo gits parent = Some cs.
Proof.
  induction gits as [|g gits IH]; intros Hret parent; simpl; [eauto|].
  destruct (Hret g (Some parent)) as [tmp ->]; [now left|].
  destruct (IH (fun g' p H => Hret g' p (or_intror H)) tmp) as [rest ->].
  eauto.
Qed.

Lemma walker_levels (fuel : nat) (repo : Repo) (start : start_arg)
    (end_ : end_arg) (parent : option Commit) :
  (forall g p,
      In g (git_walk (_repo repo) (walk_start repo start) (walk_end repo end_)) ->
      exists c, to_commit fuel repo g p = Some c) ->
  match walker fuel repo start end_ parent with
  | Ok cs => walk_levels parent cs
  | Raise _ =>
      git_walk (_repo repo) (walk_start repo start) (walk_end repo end_) = []
  | OutOfFuel => False
  end.
Proof.
  intros Hret. unfold walker.
  destruct (git_walk _ _ _) as [|g gits]; [reflexivity|].
  destruct (Hret g parent) as [first Hfirst]; [now left|]. rewrite Hfirst.
  destruct (walker_rest_returns fuel repo gits
              (fun g' p H => Hret g' p (or_intror H)) first) as [rest Hrest].
  rewrite Hrest. apply walker_rest_chain in Hrest.
  apply to_commit_stores in Hfirst. destruct Hfirst as (_ & _ & Hlevel).
  exists first, rest. repeat split; try assumption.
  constructor; [lia|]. apply (levels_chain_ge _ _ first); [lia|assumption].
Qed.

Lemma class_kind_precedence (repo : Repo) (g : GitCommit) (k : CommitClass) :
  k = match git_parents g with
      | None => LastCommit
      | Some [] => InitialCommit
      | Some [_] => PlainCommit
      | Some [p0; p1] =>
          match git_merge_base (_repo repo) (git_id p0) (git_id p1) with
          | None => Subtree
          | Some _ => Merge
          end
      | Some (_ :: _ :: _ :: _) => Octopus
      end ->
  kind_precedence repo g k.
Proof.
  intros ->. split.
  - intros ->. reflexivity.
  - intros ps ->.
    destruct ps as [|p0 [|p1 [|p2 ps]]]; simpl;
      (split; [|split; [|split]]);
      try (intros _; reflexivity); try (intros ?; exfalso; lia).
    intros _ q0 q1 [= <-] [= <-].
    destruct (git_merge_base (_repo repo) (git_id p0) (git_id p1));
      split; split; congruence.
Qed.

(** C1. [to_commit] assigns the class by precedence: no parents gives
    [InitialCommit]; parents that do not resolve give [LastCommit], the
    boundary commit, and the failure is absorbed (the call still returns);
    one parent gives the plain [Commit]; two parents give [Subtree] exactly
    when the merge base of parent 0 and parent 1 is none and [Merge]
    otherwise; more than two give [Octopus]. With a well-founded history
    the call returns for every commit once the fuel suffices. *)
Theorem to_commit_kind_precedence (repo : Repo) (g : GitCommit)
    (parent : option Commit) :
  well_founded (merge_base_step repo) ->
  exists n : nat, forall fuel : nat, (n <= fuel)%nat ->
    exists c,
      to_commit fuel repo g parent = Some c /\
      _commit c = g /\
      kind_precedence repo g (cls c).
Proof.
  intros Hwf. destruct (to_commit_returns repo g (Hwf g)) as [n Hn].
  exists n. intros fuel Hf. destruct (Hn fuel parent Hf) as [c Hc].
  exists c. split; [exact Hc|]. split.
  - apply to_commit_stores in Hc. tauto.
  - apply class_kind_precedence. apply (to_commit_class fuel repo g parent c Hc).
Qed.

Lemma to_commit_kind_precedence_witness :
  well_founded (merge_base_step sample.repo) /\
  exists n : nat, forall fuel : nat, (n <= fuel)%nat ->
    exists c,
      to_commit fuel sample.repo sample.gC None = Some c /\
      _commit c = sample.gC /\
      kind_precedence sample.repo sample.gC (cls c).
Proof.
  split.
  - exact sample_well_founded.
  - exact (to_commit_kind_precedence sample.repo sample.gC None
             sample_well_founded).
Defined.

(** C2, as the claim states it, fails on the sample history: the first
    commit of the top-level walk gets level 1, not 0, and unfolding the
    merge [c] at level 1 yields [e1] at level 3, not 2. *)
Lemma level_claim_counterexample :
  (exists c,
      to_commit 1 sample.repo sample.gF None = Some c /\ level c <> 0) /\
  (exists self cs c,
      to_commit 2 sample.repo sample.gC None = Some self /\
      isinstance_Foldable self = true /\
      child_log 2 sample.repo self = Ok cs /\
      In c cs /\ level c <> level self + 1).
Proof.
  split.
  - eexists. split; [reflexivity|]. simpl. discriminate.
  - eexists. eexists. eexists.
    split; [reflexivity|]. split; [reflexivity|].
    split; [reflexivity|]. split.
    + right. left. reflexivity.
    + simpl. discriminate.
Qed.

Lemma child_log_levels (repo : Repo) (self : Commit) :
  well_founded (merge_base_step repo) ->
  exists n : nat, forall fuel : nat, (n <= fuel)%nat ->
    match child_log fuel repo self with
    | Ok cs => walk_levels (Some self) cs
    | Raise _ => True
    | OutOfFuel => False
    end.
Proof.
  intros Hwf. unfold child_log.
  destruct (cls self).
  1,2,3: exists 0%nat; intros; exact I.
  3: { destruct (to_commit_returns_all repo
                   (git_walk (_repo repo) (walk_start repo (StartCommit self))
                      (walk_end repo EndNone)) Hwf) as [n Hn].
       exists n. intros fuel Hf.
       pose proof (walker_levels fuel repo (StartCommit self) EndNone (Some self)
                     (fun g p H => Hn fuel g p Hf H)) as Hw.
       destruct (walker fuel repo (StartCommit self) EndNone (Some self));
         auto. }
  all: destruct (git_parents (_commit self)) as [[|p0 [|p1 tl]]|];
    try (exists 0%nat; intros; exact I).
  all: unfold merge_base, merge_base_with.
  all: destruct (git_merge_base (_repo repo) (git_id p0) (git_id p1)) as [m|].
  all: try (destruct (to_commit_returns_all repo
                   (git_walk (_repo repo) (walk_start repo (StartGit p1))
                      (walk_end repo EndNone)) Hwf) as [n Hn];
       exists n; intros fuel Hf;
       pose proof (walker_levels fuel repo (StartGit p1) EndNone (Some self)
                     (fun g p H => Hn fuel g p Hf H)) as Hw;
       destruct (walker fuel repo (StartGit p1) EndNone (Some self));
       auto; fail).
  all: destruct (to_commit_returns repo _ (Hwf (git_getitem (_repo repo) m)))
         as [n1 Hn1].
  all: destruct (to_commit_returns_all repo
                   (git_walk (_repo repo) (git_id p1)
                      (Some (git_id (git_getitem (_repo repo) m)))) Hwf)
         as [n2 Hn2].
  all: exists (Nat.max n1 n2); intros fuel Hf.
  all: destruct (Hn1 fuel None) as [e He]; [lia|]; rewrite He.
  all: assert (Hoid : oid e = git_id (git_getitem (_repo repo) m))
         by (apply to_commit_stores in He; unfold oid;
             destruct He as [-> _]; reflexivity).
  all: pose proof (walker_levels fuel repo (StartGit p1) (EndCommit e)
                     (Some self)) as Hw.
  all: simpl in Hw; rewrite Hoid in Hw.
  all: specialize (Hw (fun g p H => Hn2 fuel g p ltac:(lia) H)).
  all: destruct (walker fuel repo (StartGit p1) (EndCommit e) (Some self));
         auto.
Qed.

(** C2, amended. A commit wrapped without a parent context gets level 1;
    with one it gets the context's level, plus 1 exactly when the context
    is a [Foldable]. Along a walk the context of each later commit is the
    commit yielded before it; so the first commit of the top-level walk has
    level 1 and the first commit yielded while unfolding a foldable commit
    at level L has level L+1, and no later one lies below that. With a
    well-founded history each of these calls finishes once the fuel
    suffices. *)
Theorem level_follows_parent_context (repo : Repo) :
  well_founded (merge_base_step repo) ->
  (forall g parent, exists n : nat, forall fuel : nat, (n <= fuel)%nat ->
     exists c,
       to_commit fuel repo g parent = Some c /\
       match parent with
       | None => level c = 1
       | Some p =>
           level c = if isinstance_Foldable p then level p + 1 else level p
       end) /\
  (forall start end_, exists n : nat, forall fuel : nat, (n <= fuel)%nat ->
     match walker fuel repo start end_ None with
     | Ok cs =>
         exists first rest,
           cs = first :: rest /\ level first = 1 /\
           levels_chain first rest /\ Forall (fun c => 1 <= level c) cs
     | Raise _ =>
         git_walk (_repo repo) (walk_start repo start) (walk_end repo end_) = []
     | OutOfFuel => False
     end) /\
  (forall self, isinstance_Foldable self = true ->
     exists n : nat, forall fuel : nat, (n <= fuel)%nat ->
       match child_log fuel repo self with
       | Ok cs =>
           exists first rest,
             cs = first :: rest /\ level first = level self + 1 /\
             levels_chain first rest /\
             Forall (fun c => level self + 1 <= level c) cs
       | Raise _ => True
       | OutOfFuel => False
       end).
Proof.
  intros Hwf. split; [|split].
  - intros g parent. destruct (to_commit_returns repo g (Hwf g)) as [n Hn].
    exists n. intros fuel Hf. destruct (Hn fuel parent Hf) as [c Hc].
    exists c. split; [exact Hc|].
    apply to_commit_stores in Hc. destruct Hc as (_ & _ & ->).
    destruct parent as [p|]; simpl; [|reflexivity].
    destruct (isinstance_Foldable p); lia.
  - intros start end_.
    destruct (to_commit_returns_all repo
                (git_walk (_repo repo) (walk_start repo start)
                   (walk_end repo end_)) Hwf) as [n Hn].
    exists n. intros fuel Hf.
    pose proof (walker_levels fuel repo start end_ None
                  (fun g p H => Hn fuel g p Hf H)) as Hw.
    destruct (walker fuel repo start end_ None); auto.
  - intros self Hfold. destruct (child_log_levels repo self Hwf) as [n Hn].
    exists n. intros fuel Hf. specialize (Hn fuel Hf).
    destruct (child_log fuel repo self); auto.
    unfold walk_levels in Hn. simpl in Hn. rewrite Hfold in Hn. exact Hn.
Qed.

Lemma level_follows_parent_context_witness :
  well_founded (merge_base_step sample.repo) /\
  (exists n : nat, forall fuel : nat, (n <= fuel)%nat ->
     exists c,
       to_commit fuel sample.repo sample.gF None = Some c /\ level c = 1) /\
  (exists n : nat, forall fuel : nat, (n <= fuel)%nat ->
     match walker fuel sample.repo StartNone EndNone None with
     | Ok cs =>
         exists first rest,
           cs = first :: rest /\ level first = 1 /\
           levels_chain first rest /\ Forall (fun c => 1 <= level c) cs
     | Raise _ =>
         git_walk (_repo sample.repo) (walk_start sample.repo StartNone)
           (walk_end sample.repo EndNone) = []
     | OutOfFuel => False
     end).
Proof.
  pose proof (level_follows_parent_context sample.repo sample_well_founded)
    as (Hcommit & Hwalk & _).
  split; [exact sample_well_founded|]. split.
  - exact (Hcommit sample.gF None).
  - exact (Hwalk StartNone EndNone).
Defined.

End line_facts.

(* ===================================================================== *)
(** * Properties of [glv/ui/history.py] *)
(* ===================================================================== *)

Module history_facts.
Import history.

(** ** The sample history at work *)

Example sample_loaded_rows :
  map short_id (commit_list sample.loaded) =
  ["f3a9c21"; "c71e0b4"; "b5d2f80"; "a0c4e6d"]%string.
Proof. reflexivity. Qed.

Example sample_short_read :
  match fill_up 3 sample.two_rows with
  | Return fetched h => (fetched, length (commit_list h))
  | Raise _ _ => (-1, 0%nat)
  end = (2, 4%nat).
Proof. reflexivity. Qed.

Example sample_toggle_unfolds :
  match toggle_fold sample.child_history sample.is_folded 1 sample.loaded with
  | Return _ h => map (fun c => (short_id c, level c)) (commit_list h)
  | Raise _ _ => []
  end =
  [("f3a9c21", 0); ("c71e0b4", 0); ("e92b7f5", 1); ("d18a3c7", 1);
   ("b5d2f80", 0); ("a0c4e6d", 0)]%string.
Proof. reflexivity. Qed.

Example sample_toggle_twice :
  match toggle_fold sample.child_history sample.is_folded 1 sample.unfolded with
  | Return _ h =>
      (map short_id (commit_list h), line_count h - line_count sample.loaded)
  | Raise _ _ => ([], 0)
  end = (["f3a9c21"; "c71e0b4"; "b5d2f80"; "a0c4e6d"]%string, 3).
Proof. reflexivity. Qed.

(** ** [str_in] is the substring test *)

Lemma startswith_spec (needle haystack : string) :
  startswith needle haystack = true <->
  exists post, haystack = (needle ++ post)%string.
Proof.
  revert haystack. induction needle as [|a needle IH]; intros haystack; simpl.
  - split; [intros _; exists haystack; reflexivity|reflexivity].
  - destruct haystack as [|b haystack].
    + split; [discriminate|intros [post H]; discriminate H].
    + rewrite Bool.andb_true_iff, IH. split.
      * intros [Hab [post ->]]. apply Ascii.eqb_eq in Hab as ->. eauto.
      * intros [post [= -> ->]]. split; [apply Ascii.eqb_refl|eauto].
Qed.

Lemma str_in_spec (needle haystack : string) :
  str_in needle haystack = true <->
  exists pre post, haystack = (pre ++ needle ++ post)%string.
Proof.
  induction haystack as [|b haystack IH]; simpl.
  - rewrite Bool.orb_false_r, startswith_spec. split.
    + intros [post ->]. exists EmptyString, post. reflexivity.
    + intros [[|a pre] [post H]]; [eauto|discriminate H].
  - rewrite Bool.orb_true_iff, startswith_spec, IH. split.
    + intros [[post ->]|[pre [post ->]]].
      * exists EmptyString, post. reflexivity.
      * exists (String b pre), post. reflexivity.
    + intros [[|a pre] [post H]].
      * left. exists post. exact H.
      * right. injection H as -> ->. eauto.
Qed.

(** The forward predicate is the match predicate of the search: the needle
    is a substring of the short id, the subject, the author name or one of
    the branch labels. *)
Lemma forward_match_spec (needle : string) (commit : Commit) :
  forward_match needle commit = true <->
  str_in needle (short_id commit) = true \/
  str_in needle (subject commit) = true \/
  str_in needle (author_name commit) = true \/
  exists label, In label (branches commit) /\ str_in needle label = true.
Proof.
  unfold forward_match.
  rewrite !Bool.orb_true_iff, existsb_exists. tauto.
Qed.

(** ** What the helpers leave alone *)

Lemma note_entry_fields (entry : LogEntry) (h : History) :
  commit_list (note_entry entry h) = commit_list h /\
  log_entry_list (note_entry entry h) = log_entry_list h /\
  line_count (note_entry entry h) = line_count h /\
  fetches (note_entry entry h) = fetches h /\
  cursor_position (note_entry entry h) = cursor_position h /\
  working_dir (note_entry entry h) = working_dir h /\
  search_state (note_entry entry h) = search_state h.
Proof.
  unfold note_entry.
  destruct (date_max_len h <? _)%nat; simpl;
    destruct (_ <? _)%nat; simpl; auto 10.
Qed.

(** The loop of [fill_up] appends the commits, and an entry for each, in
    order. *)
Lemma fill_up_loop_fields (commits : list Commit) :
  forall h : History,
    let h' := fold_left fill_up_step commits h in
    commit_list h' = commit_list h ++ commits /\
    log_entry_list h' =
      log_entry_list h ++
      map (fun c => mkLogEntry c (working_dir h) (search_state h)) commits /\
    line_count h' = line_count h /\
    fetches h' = fetches h /\
    cursor_position h' = cursor_position h /\
    working_dir h' = working_dir h /\
    search_state h' = search_state h.
Proof.
  induction commits as [|c commits IH]; intros h; simpl.
  - rewrite !app_nil_r. auto 10.
  - specialize (IH (fill_up_step h c)). simpl in IH.
    destruct IH as (Hc & Hl & Hn & Hf & Hp & Hw & Hs).
    unfold fill_up_step in *.
    destruct (note_entry_fields
                (mkLogEntry c (working_dir h) (search_state h))
                (set_log_entry_list
                   (log_entry_list h ++
                    [mkLogEntry c (working_dir h) (search_state h)])
                   (set_commit_list (commit_list h ++ [c]) h)))
      as (Hc' & Hl' & Hn' & Hf' & Hp' & Hw' & Hs').
    simpl in *.
    rewrite Hc, Hl, Hn, Hf, Hp, Hw, Hs, Hc', Hl', Hn', Hf', Hp', Hw', Hs'.
    rewrite <- !app_assoc. simpl. auto 10.
Qed.

(** ** [fill_up] *)

Lemma fill_up_guard (amount : Z) (h : History) :
  amount <= 0 -> fill_up amount h = Raise ValueError h.
Proof.
  intros Ha. unfold fill_up.
  destruct (Z.leb_spec amount 0) as [_|Hlt]; [reflexivity|lia].
Qed.

(** C9. For every amount that is not positive, [fill_up] raises
    [ValueError] at once: the object is left as it was, so no
    [iter_commits] call is issued and nothing is appended, whatever the
    materialized sequence holds. *)
Theorem fill_up_rejects_nonpositive (amount : Z) (h : History) :
  amount <= 0 ->
  fill_up amount h = Raise ValueError h /\
  fetches (state_of (fill_up amount h)) = fetches h /\
  commit_list (state_of (fill_up amount h)) = commit_list h.
Proof.
  intros Ha. rewrite (fill_up_guard amount h Ha). simpl. auto.
Qed.

Lemma fill_up_rejects_nonpositive_witness :
  -3 <= 0 /\ fill_up (-3) sample.loaded = Raise ValueError sample.loaded.
Proof.
  split; [lia|].
  apply (proj1 (fill_up_rejects_nonpositive (-3) sample.loaded ltac:(lia))).
Defined.

(** What a call with a positive amount does, for any repository. *)
Lemma fill_up_positive (amount : Z) (h : History) :
  0 < amount ->
  let skip := length (top_level (commit_list h)) in
  let commits := iter_commits (_repo h) (revision_0 h) skip amount (files h) in
  exists h',
    fill_up amount h = Return (Z.of_nat (length commits)) h' /\
    fetches h' = mkFetch (revision_0 h) skip amount (files h) :: fetches h /\
    commit_list h' = commit_list h ++ commits /\
    log_entry_list h' =
      log_entry_list h ++
      map (fun c => mkLogEntry c (working_dir h) (search_state h)) commits /\
    line_count h' = line_count h /\
    cursor_position h' = cursor_position h.
Proof.
  intros Ha skip commits. unfold fill_up.
  destruct (Z.leb_spec amount 0) as [Hle|_]; [lia|].
  eexists. split; [reflexivity|].
  destruct (fill_up_loop_fields commits
              (record_fetch (mkFetch (revision_0 h) skip amount (files h)) h))
    as (Hc & Hl & Hn & Hf & Hp & _).
  fold skip. fold commits. simpl in *. auto 10.
Qed.

(** The window of a log: its size, and what it shares with the part
    before it. *)
Lemma window_length (A : Type) (log : list A) (skip : nat) (amount : Z) :
  0 < amount ->
  Z.of_nat (length (take (Z.to_nat amount) (drop skip log))) <= amount /\
  (Z.of_nat (length log) - Z.of_nat skip < amount ->
   length (take (Z.to_nat amount) (drop skip log)) = (length log - skip)%nat).
Proof.
  intros Ha. rewrite length_take, length_drop. lia.
Qed.

Lemma window_fresh (A : Type) (log : list A) (skip n : nat) (c : A) :
  NoDup log -> In c (take n (drop skip log)) -> ~ In c (take skip log).
Proof.
  intros Hnd Hin Hold.
  rewrite <- (take_drop skip log) in Hnd.
  apply NoDup_app in Hnd as (_ & Hdisj & _).
  apply (Hdisj c).
  - apply list_elem_of_In. exact Hold.
  - apply list_elem_of_In in Hin. apply elem_of_take in Hin as (i & Hi & _).
    apply list_elem_of_lookup. eauto.
Qed.

(** C5. A call [fill_up amount] with a positive amount asks the walker for
    [amount] commits after skipping as many as there are records of level
    0 in the sequence, appends what it gets to the end, and returns how
    many that was, without raising. When the walker serves the windows of
    the first-parent log ([first_parent_log]) the count is at most
    [amount], it is what is left of the log when fewer than [amount]
    commits are left, and, the level-0 records present being the first
    [skip] commits of a log without repetition, no commit fetched is one
    of them. *)
Theorem fill_up_skips_top_level (amount : Z) (h : History) :
  0 < amount ->
  let skip := length (top_level (commit_list h)) in
  let commits := iter_commits (_repo h) (revision_0 h) skip amount (files h) in
  exists h',
    fill_up amount h = Return (Z.of_nat (length commits)) h' /\
    fetches h' = mkFetch (revision_0 h) skip amount (files h) :: fetches h /\
    commit_list h' = commit_list h ++ commits /\
    (forall log : list Commit,
       first_parent_log (_repo h) (revision_0 h) (files h) log ->
       commits = take (Z.to_nat amount) (drop skip log) /\
       Z.of_nat (length commits) <= amount /\
       (Z.of_nat (length log) - Z.of_nat skip < amount ->
        length commits = (length log - skip)%nat /\
        Z.of_nat (length commits) < amount) /\
       (NoDup log ->
        top_level (commit_list h) = take skip log ->
        forall c, In c commits -> ~ In c (top_level (commit_list h)))).
Proof.
  intros Ha skip commits.
  destruct (fill_up_positive amount h Ha) as (h' & Hr & Hf & Hc & _).
  exists h'. repeat (split; [assumption|]).
  intros log Hlog.
  assert (Hw : commits = take (Z.to_nat amount) (drop skip log))
    by (apply Hlog; exact Ha).
  destruct (window_length Commit log skip amount Ha) as [Hle Hshort].
  rewrite <- Hw in Hle, Hshort.
  split; [exact Hw|]. split; [exact Hle|]. split.
  - intros Hend. split; [apply Hshort; exact Hend|].
    rewrite (Hshort Hend). lia.
  - intros Hnd Htop c Hin. rewrite Htop. rewrite Hw in Hin.
    apply (window_fresh Commit log skip (Z.to_nat amount) c Hnd Hin).
Qed.

Lemma sample_log_NoDup : NoDup sample.log.
Proof.
  unfold sample.log.
  repeat (apply NoDup_cons; split;
          [rewrite list_elem_of_In; simpl; intuition discriminate|]).
  apply NoDup_nil. exact I.
Qed.

Lemma fill_up_skips_top_level_witness :
  0 < 3 /\
  first_parent_log sample.repo "HEAD" [] sample.log /\
  top_level (commit_list sample.two_rows) = take 2 sample.log /\
  exists h',
    fill_up 3 sample.two_rows = Return 2 h' /\
    commit_list h' = sample.log /\
    forall c, In c [sample.cB; sample.cA] ->
              ~ In c (top_level (commit_list sample.two_rows)).
Proof.
  split; [lia|]. split; [intros skip max_count _; reflexivity|].
  split; [reflexivity|].
  destruct (fill_up_skips_top_level 3 sample.two_rows ltac:(lia))
    as (h' & Hr & _ & Hc & Hlog).
  exists h'. split; [exact Hr|]. split; [exact Hc|].
  destruct (Hlog sample.log (fun skip max_count _ => eq_refl))
    as (_ & _ & _ & Hfresh).
  exact (Hfresh sample_log_NoDup eq_refl).
Defined.

(** The premise about the level-0 records is kept by [fill_up]: when the
    log holds level-0 records only, the level-0 records after the call are
    again a prefix of the log. *)
Lemma fill_up_keeps_prefix (amount : Z) (h : History) (log : list Commit) :
  0 < amount ->
  first_parent_log (_repo h) (revision_0 h) (files h) log ->
  Forall (fun c => level c = 0) log ->
  top_level (commit_list h) =
    take (length (top_level (commit_list h))) log ->
  let cl' := commit_list (state_of (fill_up amount h)) in
  top_level cl' = take (length (top_level cl')) log.
Proof.
  intros Ha Hlog Hzero Htop.
  destruct (fill_up_positive amount h Ha) as (h' & -> & _ & Hc & _).
  simpl. rewrite Hc, (Hlog _ amount Ha). unfold top_level in *.
  rewrite List.filter_app.
  set (skip := length (List.filter (fun x => level x =? 0) (commit_list h)))
    in *.
  assert (Hall : forall l : list Commit,
             Forall (fun c => level c = 0) l ->
             List.filter (fun x => level x =? 0) l = l).
  { induction l as [|a l IHl]; intros Hl; [reflexivity|].
    inversion Hl as [|? ? Ha0 Hl']; subst. simpl.
    rewrite Ha0, (IHl Hl'). reflexivity. }
  rewrite (Hall (take (Z.to_nat amount) (drop skip log))).
  - rewrite Htop, take_take_drop, length_take.
    destruct (Nat.le_ge_cases (skip + Z.to_nat amount) (length log)).
    + rewrite Nat.min_l by assumption. reflexivity.
    + rewrite Nat.min_r by assumption.
      rewrite !take_ge by lia. reflexivity.
  - apply Forall_take, Forall_drop. exact Hzero.
Qed.

(** ** [_fold] *)

Lemma del_middle (A : Type) (pre post : list A) (x : A) (pos : nat) :
  length pre = pos -> del pos (pre ++ x :: post) = Some (pre ++ post).
Proof.
  intros <-. unfold del. rewrite length_app. simpl.
  destruct (Nat.ltb_spec (length pre) (length pre + S (length post)));
    [|lia].
  rewrite delete_middle. reflexivity.
Qed.

(** Every list splits into its leading run of records deeper than [c] and
    a rest that stops the run. *)
Lemma deeper_run_split (c : Commit) (l : list Commit) :
  exists run rest,
    l = run ++ rest /\ Forall (fun x => level c < level x) run /\
    stops_run c rest.
Proof.
  induction l as [|x l (run & rest & -> & Hrun & Hrest)].
  - exists [], []. simpl. auto.
  - destruct (Z.ltb_spec (level c) (level x)) as [Hlt|Hge].
    + exists (x :: run), rest. simpl. auto.
    + exists [], (x :: run ++ rest). simpl. auto.
Qed.

(** The loop of [_fold] on a sequence that is [pre], a run of deeper
    records and a rest that stops the run: the run goes, and with it the
    entries at the same rows. *)
Lemma _fold_loop_run (c : Commit) (pos : nat) (rest pre : list Commit)
    (lrest lpre : list LogEntry) (run : list Commit) :
  forall (lrun : list LogEntry) (h : History),
    Forall (fun x => level c < level x) run ->
    stops_run c rest ->
    length pre = pos -> length lpre = pos -> length lrun = length run ->
    commit_list h = pre ++ run ++ rest ->
    log_entry_list h = lpre ++ lrun ++ lrest ->
    _fold_loop (run ++ rest) pos c h =
      Return tt
        (set_log_entry_list (lpre ++ lrest) (set_commit_list (pre ++ rest) h)).
Proof.
  induction run as [|r run IH]; intros lrun h Hrun Hrest Hpre Hlpre Hlen Hc Hl.
  - destruct lrun; [|discriminate]. simpl in *.
    assert (Hh : set_log_entry_list (lpre ++ lrest)
                   (set_commit_list (pre ++ rest) h) = h)
      by (destruct h; simpl in *; subst; reflexivity).
    rewrite Hh.
    destruct rest as [|x rest]; simpl; [reflexivity|].
    unfold stops_run in Hrest.
    destruct (Z.ltb_spec (level c) (level x)); [lia|reflexivity].
  - destruct lrun as [|e lrun]; [discriminate|]. simpl in *.
    inversion Hrun as [|? ? Hr Hrun']; subst.
    destruct (Z.ltb_spec (level c) (level r)); [|lia].
    rewrite Hc, (del_middle _ pre (run ++ rest) r (length pre) eq_refl).
    simpl. rewrite Hl, (del_middle _ lpre (lrun ++ lrest) e (length pre) Hlpre).
    rewrite (IH lrun); simpl; auto.
Qed.

Lemma _fold_loop_fields (c : Commit) (pos : nat) (snapshot : list Commit) :
  forall h : History,
    let h' := state_of (_fold_loop snapshot pos c h) in
    line_count h' = line_count h /\ fetches h' = fetches h /\
    cursor_position h' = cursor_position h.
Proof.
  induction snapshot as [|cur snapshot IH]; intros h; simpl; [auto|].
  destruct (level c <? level cur); simpl; [|auto].
  destruct (del pos (commit_list h)) as [cl|]; simpl; [|auto].
  destruct (del pos (log_entry_list h)) as [ll|]; simpl; [|auto].
  apply (IH (set_log_entry_list ll (set_commit_list cl h))).
Qed.

(** [_fold] at [pos], for a sequence with an entry for every record. *)
Lemma _fold_removes_run (pos : nat) (c : Commit) (h : History) :
  (length (commit_list h) <= length (log_entry_list h))%nat ->
  exists run rest h',
    drop pos (commit_list h) = run ++ rest /\
    Forall (fun x => level c < level x) run /\
    stops_run c rest /\
    _fold pos c h = Return tt h' /\
    commit_list h' = take pos (commit_list h) ++ rest /\
    log_entry_list h' =
      take pos (log_entry_list h) ++
      drop (pos + length run) (log_entry_list h).
Proof.
  intros Hlen.
  destruct (deeper_run_split c (drop pos (commit_list h)))
    as (run & rest & Hsplit & Hrun & Hrest).
  destruct (decide (pos <= length (commit_list h))%nat) as [Hpos|Hpos].
  - exists run, rest. eexists. split; [exact Hsplit|].
    split; [exact Hrun|]. split; [exact Hrest|].
    unfold _fold. rewrite Hsplit.
    assert (Hrl : (pos + length run <= length (commit_list h))%nat).
    { pose proof (f_equal length Hsplit) as Hl.
      rewrite length_drop, length_app in Hl. lia. }
    rewrite (_fold_loop_run c pos rest (take pos (commit_list h))
               (drop (pos + length run) (log_entry_list h))
               (take pos (log_entry_list h)) run
               (take (length run) (drop pos (log_entry_list h))) h);
      auto.
    + rewrite length_take. lia.
    + rewrite length_take. lia.
    + rewrite length_take, length_drop. lia.
    + rewrite <- Hsplit, take_drop. reflexivity.
    + rewrite <- drop_drop, take_drop, take_drop. reflexivity.
  - assert (Hnil : drop pos (commit_list h) = [])
      by (apply drop_ge; lia).
    rewrite Hnil in Hsplit. symmetry in Hsplit.
    apply app_eq_nil in Hsplit as [-> ->].
    exists [], [], h. unfold _fold. rewrite Hnil. simpl.
    rewrite Nat.add_0_r, app_nil_r, take_drop, take_ge by lia. auto 10.
Qed.

(** C4. At a row [i] that holds an unfolded foldable commit, folding
    removes exactly the run of records that starts at [i+1] and whose
    levels are strictly greater than the level of the commit at [i]; it
    stops at the first record whose level is at most that level, or at the
    end of the sequence. The bound is the level of the commit being folded,
    for every sequence, whatever else is unfolded in it. *)
Theorem fold_removes_deeper_run (child_history : string -> Commit -> list Commit)
    (is_folded : list Commit -> nat -> bool) (h : History) (i : nat)
    (c : Commit) :
  commit_list h !! i = Some c ->
  is_merge c = true ->
  is_folded (commit_list h) i = false ->
  (length (commit_list h) <= length (log_entry_list h))%nat ->
  exists run rest h',
    drop (S i) (commit_list h) = run ++ rest /\
    Forall (fun x => level c < level x) run /\
    stops_run c rest /\
    toggle_fold child_history is_folded i h = Return tt h' /\
    commit_list h' = take (S i) (commit_list h) ++ rest.
Proof.
  intros Hi Hmerge Hfolded Hlen.
  destruct (_fold_removes_run (S i) c h Hlen)
    as (run & rest & h' & Hsplit & Hrun & Hrest & Hfold & Hc & _).
  exists run, rest, h'. repeat (split; [assumption|]).
  split; [|exact Hc].
  unfold toggle_fold. rewrite Hi, Hmerge, Hfolded. simpl.
  rewrite Nat.add_1_r. exact Hfold.
Qed.

Lemma fold_removes_deeper_run_witness :
  commit_list sample.unfolded !! 1%nat = Some sample.cC /\
  is_merge sample.cC = true /\
  sample.is_folded (commit_list sample.unfolded) 1 = false /\
  (length (commit_list sample.unfolded) <=
   length (log_entry_list sample.unfolded))%nat /\
  exists run rest h',
    drop 2 (commit_list sample.unfolded) = run ++ rest /\
    Forall (fun x => level sample.cC < level x) run /\
    stops_run sample.cC rest /\
    toggle_fold sample.child_history sample.is_folded 1 sample.unfolded =
      Return tt h' /\
    commit_list h' = take 2 (commit_list sample.unfolded) ++ rest.
Proof.
  assert (H1 : commit_list sample.unfolded !! 1%nat = Some sample.cC)
    by reflexivity.
  assert (H2 : is_merge sample.cC = true) by reflexivity.
  assert (H3 : sample.is_folded (commit_list sample.unfolded) 1 = false)
    by reflexivity.
  assert (H4 : (length (commit_list sample.unfolded) <=
                length (log_entry_list sample.unfolded))%nat)
    by (vm_compute; lia).
  repeat (split; [assumption|]).
  exact (fold_removes_deeper_run sample.child_history sample.is_folded
           sample.unfolded 1 sample.cC H1 H2 H3 H4).
Defined.

(** ** [_unfold] *)

Lemma list_insert_at_end (A : Type) (pre post : list A) (x : A) (i : nat) :
  length pre = i -> list_insert_at i x (pre ++ post) = pre ++ x :: post.
Proof.
  intros <-. unfold list_insert_at.
  rewrite take_app_length, drop_app_length. reflexivity.
Qed.

Lemma length_list_insert_at (A : Type) (l : list A) (x : A) (i : nat) :
  length (list_insert_at i x l) = S (length l).
Proof.
  unfold list_insert_at. rewrite length_app. simpl.
  rewrite length_take, length_drop. lia.
Qed.

(** The loop of [_unfold] counts the records it inserts; it touches the
    two lists and the two maxima only. *)
Lemma _unfold_loop_counts (line_number : nat) (children : list Commit) :
  forall (h : History) (index : nat),
    let r := fold_left (_unfold_step line_number) children (h, index) in
    snd r = (index + length children)%nat /\
    length (commit_list (fst r)) =
      (length (commit_list h) + length children)%nat /\
    line_count (fst r) = line_count h /\
    fetches (fst r) = fetches h /\
    cursor_position (fst r) = cursor_position h /\
    working_dir (fst r) = working_dir h /\
    search_state (fst r) = search_state h.
Proof.
  induction children as [|c children IH]; intros h index; simpl.
  - rewrite !Nat.add_0_r. auto 10.
  - pose proof (note_entry_fields
                  (mkLogEntry c (working_dir h) (search_state h)) h)
      as (Hc & Hl & Hn & Hf & Hp & Hw & Hs).
    match goal with
    | |- context [fold_left _ children (?h1, S index)] =>
        specialize (IH h1 (S index))
    end.
    simpl in IH. destruct IH as (I1 & I2 & I3 & I4 & I5 & I6 & I7).
    rewrite I1, I2, I3, I4, I5, I6, I7, length_list_insert_at, Hc.
    repeat split; auto; lia.
Qed.

(** One round of the loop at the row after the records already
    inserted. *)
Lemma _unfold_step_lists (line_number : nat) (pre post done : list Commit)
    (lpre lpost ldone : list LogEntry) (h : History) (index : nat)
    (c : Commit) :
  commit_list h = pre ++ done ++ post ->
  log_entry_list h = lpre ++ ldone ++ lpost ->
  (length pre + length done = line_number + index)%nat ->
  (length lpre + length ldone = line_number + index)%nat ->
  let r := _unfold_step line_number (h, index) c in
  snd r = S index /\
  commit_list (fst r) = pre ++ (done ++ [c]) ++ post /\
  log_entry_list (fst r) =
    lpre ++ (ldone ++ [mkLogEntry c (working_dir h) (search_state h)])
    ++ lpost /\
  working_dir (fst r) = working_dir h /\
  search_state (fst r) = search_state h.
Proof.
  intros Hc Hl Hlen Hllen.
  pose proof (note_entry_fields
                (mkLogEntry c (working_dir h) (search_state h)) h)
    as (Hc' & Hl' & _ & _ & _ & Hw & Hs).
  simpl. rewrite Hc', Hl', Hw, Hs, Hc, Hl.
  rewrite (app_assoc pre done post), (app_assoc lpre ldone lpost).
  rewrite !list_insert_at_end by (rewrite length_app; lia).
  rewrite <- !app_assoc. simpl. auto.
Qed.

(** For a row that has its record and its entry, the loop puts the
    children, and an entry for each, right after the part already
    inserted. *)
Lemma _unfold_loop_lists (line_number : nat) (pre post : list Commit)
    (lpre lpost : list LogEntry) (children : list Commit) :
  forall (h : History) (index : nat) (done : list Commit)
         (ldone : list LogEntry),
    commit_list h = pre ++ done ++ post ->
    log_entry_list h = lpre ++ ldone ++ lpost ->
    (length pre + length done = line_number + index)%nat ->
    (length lpre + length ldone = line_number + index)%nat ->
    let r := fold_left (_unfold_step line_number) children (h, index) in
    commit_list (fst r) = pre ++ (done ++ children) ++ post /\
    log_entry_list (fst r) =
      lpre ++
      (ldone ++
       map (fun c => mkLogEntry c (working_dir h) (search_state h)) children)
      ++ lpost.
Proof.
  induction children as [|c children IH];
    intros h index done ldone Hc Hl Hlen Hllen; cbn [fold_left map].
  - simpl. rewrite !app_nil_r. auto.
  - destruct (_unfold_step_lists line_number pre post done lpre lpost ldone
                h index c Hc Hl Hlen Hllen) as (E1 & E2 & E3 & E4 & E5).
    destruct (_unfold_step line_number (h, index) c) as [h1 index1].
    simpl in E1, E2, E3, E4, E5. subst index1.
    destruct (IH h1 (S index) (done ++ [c])
                (ldone ++ [mkLogEntry c (working_dir h) (search_state h)])
                E2 E3) as [I1 I2].
    + rewrite length_app. simpl. lia.
    + rewrite length_app. simpl. lia.
    + rewrite I1, I2, E4, E5, <- !app_assoc. simpl. auto.
Qed.

(** [_unfold] at a row that has its record and its entry. *)
Lemma _unfold_lists (child_history : string -> Commit -> list Commit)
    (i : nat) (c : Commit) (h : History) :
  (i < length (commit_list h))%nat ->
  (i < length (log_entry_list h))%nat ->
  let children := child_history (working_dir h) c in
  commit_list (_unfold child_history i c h) =
    take (S i) (commit_list h) ++ children ++ drop (S i) (commit_list h) /\
  log_entry_list (_unfold child_history i c h) =
    take (S i) (log_entry_list h) ++
    map (fun k => mkLogEntry k (working_dir h) (search_state h)) children ++
    drop (S i) (log_entry_list h).
Proof.
  intros Hi Hli children. unfold _unfold. fold children.
  destruct (_unfold_loop_lists i (take (S i) (commit_list h))
              (drop (S i) (commit_list h)) (take (S i) (log_entry_list h))
              (drop (S i) (log_entry_list h)) children h 1%nat [] [])
    as [H1 H2].
  - simpl. rewrite take_drop. reflexivity.
  - simpl. rewrite take_drop. reflexivity.
  - rewrite length_take. cbn [length]. lia.
  - rewrite length_take. cbn [length]. lia.
  - destruct (fold_left (_unfold_step i) children (h, 1%nat)) as [h1 index].
    simpl in *. auto.
Qed.

(** C3. At a row [i] that holds a folded foldable commit, with its entry
    beside it, unfolding and then folding at the same row gives back the
    materialized sequence: the same records and the same entries, hence
    the same length. The side-branch walk yields records deeper than the
    commit it unfolds. *)
Theorem unfold_then_fold_restores
    (child_history : string -> Commit -> list Commit) (h : History)
    (i : nat) (c : Commit) :
  commit_list h !! i = Some c ->
  is_merge c = true ->
  folded_at (commit_list h) i ->
  (i < length (log_entry_list h))%nat ->
  Forall (fun k => level c < level k) (child_history (working_dir h) c) ->
  exists h',
    _fold (i + 1) c (_unfold child_history i c h) = Return tt h' /\
    commit_list h' = commit_list h /\
    log_entry_list h' = log_entry_list h /\
    length (commit_list h') = length (commit_list h).
Proof.
  intros Hi _ Hfolded Hli Hdeep.
  assert (Hlt : (i < length (commit_list h))%nat)
    by (apply lookup_lt_is_Some; eauto).
  destruct (_unfold_lists child_history i c h Hlt Hli) as [Hc Hl].
  set (children := child_history (working_dir h) c) in *.
  set (u := _unfold child_history i c h) in *.
  assert (Hstop : stops_run c (drop (S i) (commit_list h))).
  { unfold folded_at in Hfolded. rewrite Hi in Hfolded.
    destruct (drop (S i) (commit_list h)) as [|x rest] eqn:Hd; [exact I|].
    assert (Hx : commit_list h !! S i = Some x).
    { rewrite <- (Nat.add_0_r (S i)), <- lookup_drop, Hd. reflexivity. }
    rewrite Hx in Hfolded. exact Hfolded. }
  exists (set_log_entry_list (log_entry_list h) (set_commit_list (commit_list h) u)).
  split; [|simpl; auto].
  unfold _fold. rewrite Nat.add_1_r, Hc, drop_app_length'
    by (rewrite length_take; lia).
  rewrite (_fold_loop_run c (S i) (drop (S i) (commit_list h))
             (take (S i) (commit_list h)) (drop (S i) (log_entry_list h))
             (take (S i) (log_entry_list h)) children
             (map (fun k => mkLogEntry k (working_dir h) (search_state h))
                children) u);
    auto.
  - rewrite !take_drop. reflexivity.
  - rewrite length_take. lia.
  - rewrite length_take. lia.
  - rewrite length_map. reflexivity.
Qed.

Lemma unfold_then_fold_restores_witness :
  commit_list sample.loaded !! 1%nat = Some sample.cC /\
  is_merge sample.cC = true /\
  folded_at (commit_list sample.loaded) 1 /\
  (1 < length (log_entry_list sample.loaded))%nat /\
  Forall (fun k => level sample.cC < level k)
    (sample.child_history (working_dir sample.loaded) sample.cC) /\
  exists h',
    _fold (1 + 1) sample.cC (_unfold sample.child_history 1 sample.cC
                               sample.loaded) = Return tt h' /\
    commit_list h' = commit_list sample.loaded /\
    log_entry_list h' = log_entry_list sample.loaded /\
    length (commit_list h') = length (commit_list sample.loaded).
Proof.
  assert (H1 : commit_list sample.loaded !! 1%nat = Some sample.cC)
    by reflexivity.
  assert (H2 : is_merge sample.cC = true) by reflexivity.
  assert (H3 : folded_at (commit_list sample.loaded) 1)
    by (vm_compute; discriminate).
  assert (H4 : (1 < length (log_entry_list sample.loaded))%nat)
    by (vm_compute; lia).
  assert (H5 : Forall (fun k => level sample.cC < level k)
                 (sample.child_history (working_dir sample.loaded) sample.cC))
    by (repeat constructor).
  repeat (split; [assumption|]).
  exact (unfold_then_fold_restores sample.child_history sample.loaded 1
           sample.cC H1 H2 H3 H4 H5).
Defined.

(** ** [line_count] *)

Lemma fill_up_fields (amount : Z) (h : History) :
  let h' := state_of (fill_up amount h) in
  line_count h' = line_count h /\ cursor_position h' = cursor_position h.
Proof.
  destruct (Z.le_gt_cases amount 0) as [Hle|Hgt].
  - rewrite (fill_up_guard amount h Hle). simpl. auto.
  - destruct (fill_up_positive amount h ltac:(lia))
      as (h' & -> & _ & _ & _ & Hn & Hp).
    simpl. auto.
Qed.

Lemma forward_loop_fields (screen_height : Z) (needle : string)
    (new_position : Z) (fuel : nat) :
  forall (index : Z) (h : History) (o : outcome (Z * Z)),
    forward_loop screen_height fuel needle new_position index h = Some o ->
    line_count (state_of o) = line_count h /\
    cursor_position (state_of o) = cursor_position h.
Proof.
  induction fuel as [|fuel IH]; intros index h o; simpl; [discriminate|].
  destruct (getitem (commit_list h) index) as [commit|].
  - destruct (forward_match needle commit).
    + intros [= <-]. simpl. auto.
    + apply IH.
  - pose proof (fill_up_fields screen_height h) as [Hn Hp].
    destruct (fill_up screen_height h) as [fetched h'|e h']; simpl in Hn, Hp.
    + destruct (fetched =? 0).
      * intros [= <-]. simpl. auto.
      * destruct (getitem (commit_list h') index) as [commit|].
        -- destruct (forward_match needle commit).
           ++ intros [= <-]. simpl. auto.
           ++ intros Ho. apply IH in Ho. rewrite <- Hn, <- Hp. exact Ho.
        -- intros [= <-]. simpl. auto.
    + intros [= <-]. simpl. auto.
Qed.

Lemma reposition_line_count (found : Z * Z) (h : History) :
  line_count (reposition found h) = line_count h.
Proof.
  destruct found as [new_position index]. unfold reposition.
  destruct (new_position =? y (cursor_position h)); reflexivity.
Qed.

Lemma search_line_count (screen_height : Z) (fuel : nat) (st : SearchState)
    (incl : bool) (count : Z) (h : History) (o : outcome unit) :
  search screen_height fuel st incl count h = Some o ->
  line_count (state_of o) = line_count h.
Proof.
  unfold search. destruct (direction st).
  - destruct (forward_loop _ _ _ _ _ _) as [[found h'|e h']|] eqn:Hloop;
      [| |discriminate]; intros [= <-];
      apply forward_loop_fields in Hloop as [Hn _]; simpl in *;
      rewrite ?reposition_line_count; exact Hn.
  - destruct (backward_loop _ _ _ _ _) as [[e|found]|];
      [| |discriminate]; intros [= <-]; simpl;
      rewrite ?reposition_line_count; reflexivity.
Qed.

Lemma _unfold_line_count (child_history : string -> Commit -> list Commit)
    (i : nat) (c : Commit) (h : History) :
  let k := length (child_history (working_dir h) c) in
  length (commit_list (_unfold child_history i c h)) =
    (length (commit_list h) + k)%nat /\
  line_count (_unfold child_history i c h) = line_count h + (Z.of_nat k + 1).
Proof.
  unfold _unfold.
  destruct (_unfold_loop_counts i (child_history (working_dir h) c) h 1%nat)
    as (Hi & Hlen & Hn & _).
  destruct (fold_left (_unfold_step i) _ (h, 1%nat)) as [h1 index].
  simpl in *. subst index. rewrite Hlen, Hn. split; [reflexivity|lia].
Qed.

(** C10. [line_count] never decreases. [__init__] sets it to the count of
    commits the repository reports for the revision; [fill_up] and [_fold]
    leave it as it is, although [_fold] removes records; an [_unfold] that
    inserts k records adds exactly k+1 to it; [toggle_fold] and [search],
    which only act through these, never lower it. *)
Theorem line_count_never_decreases
    (child_history : string -> Commit -> list Commit)
    (is_folded : list Commit -> nat -> bool) (screen_height : Z) :
  (forall repo working_dir revision_0 files,
     line_count
       (state_of (__init__ screen_height repo working_dir revision_0 files)) =
     count_commits repo revision_0) /\
  (forall amount h,
     line_count (state_of (fill_up amount h)) = line_count h) /\
  (forall pos c h,
     line_count (state_of (_fold pos c h)) = line_count h) /\
  (forall i c h,
     let k := length (child_history (working_dir h) c) in
     length (commit_list (_unfold child_history i c h)) =
       (length (commit_list h) + k)%nat /\
     line_count (_unfold child_history i c h) =
       line_count h + (Z.of_nat k + 1)) /\
  (forall i h,
     line_count h <=
     line_count (state_of (toggle_fold child_history is_folded i h))) /\
  (forall fuel st incl count h,
     match search screen_height fuel st incl count h with
     | Some o => line_count (state_of o) = line_count h
     | None => True
     end).
Proof.
  repeat split.
  - intros repo working_dir revision_0 files. unfold __init__.
    apply (fill_up_fields screen_height).
  - intros amount h. apply fill_up_fields.
  - intros pos c h. apply _fold_loop_fields.
  - apply _unfold_line_count.
  - apply _unfold_line_count.
  - intros i h. unfold toggle_fold.
    destruct (commit_list h !! i) as [c|]; simpl; [|lia].
    destruct (is_merge c); simpl; [|lia].
    destruct (is_folded (commit_list h) i); simpl.
    + destruct (_unfold_line_count child_history i c h) as [_ ->]. lia.
    + destruct (_fold_loop_fields c (i + 1) (drop (i + 1) (commit_list h)) h)
        as [Hn _]. unfold _fold. simpl in Hn. lia.
  - intros fuel st incl count h.
    destruct (search screen_height fuel st incl count h) as [o|] eqn:Ho;
      [|exact I].
    apply (search_line_count screen_height fuel st incl count h o Ho).
Qed.

(** ** The backward search *)




(** ** The match predicate in the two directions *)

(** C7, at the input where the code departs from it: the needle [release]
    is a label of [b] and occurs nowhere else in it. The forward predicate
    accepts the record and a forward search from row 0 moves the cursor to
    its row; the backward predicate rejects it and a backward search from
    row 3 passes over it and leaves the cursor where it was. *)
Lemma backward_match_ignores_branches :
  (exists label,
      In label (branches sample.cB) /\ str_in "release" label = true) /\
  forward_match "release" sample.cB = true /\
  backward_match "release" sample.cB = false /\
  (exists o,
      search 2 6 (mkSearchState "release" FORWARD) true 1
        (sample.at_row 0 sample.loaded) = Some o /\
      y (cursor_position (state_of o)) = 2) /\
  (exists o,
      search 2 6 (mkSearchState "release" BACKWARD) true 1
        (sample.at_row 3 sample.loaded) = Some o /\
      y (cursor_position (state_of o)) = 3).
Proof.
  split; [exists "release"%string; split; [left|]; reflexivity|].
  split; [reflexivity|]. split; [reflexivity|].
  split; eexists; (split; [vm_compute; reflexivity|reflexivity]).
Qed.

End history_facts.

(* ===================================================================== *)
(** * Further properties of [glv/ui/history.py] *)
(* ===================================================================== *)

Module history_more_facts.
Import history history_facts.

(** ** Python indexing *)

Lemma getitem_nonneg (A : Type) (l : list A) (index : Z) :
  0 <= index -> getitem l index = l !! Z.to_nat index.
Proof.
  intros H. unfold getitem.
  destruct (Z.leb_spec 0 index); [reflexivity|lia].
Qed.

Lemma getitem_Some_lt (A : Type) (l : list A) (index : Z) (a : A) :
  0 <= index -> getitem l index = Some a ->
  index < Z.of_nat (length l).
Proof.
  intros H. rewrite getitem_nonneg by assumption. intros Hl.
  apply lookup_lt_Some in Hl. lia.
Qed.

Lemma getitem_None_ge (A : Type) (l : list A) (index : Z) :
  0 <= index -> getitem l index = None ->
  Z.of_nat (length l) <= index.
Proof.
  intros H. rewrite getitem_nonneg by assumption. intros Hl.
  apply lookup_ge_None in Hl. lia.
Qed.

Lemma getitem_app_l (A : Type) (l k : list A) (index : Z) (a : A) :
  0 <= index -> getitem l index = Some a -> getitem (l ++ k) index = Some a.
Proof.
  intros H. rewrite !getitem_nonneg by assumption. intros Hl.
  apply lookup_app_l_Some. exact Hl.
Qed.

(** ** What the helpers keep *)

Lemma note_entry_maxima (entry : LogEntry) (h : History) :
  date_max_len (note_entry entry h) =
    Nat.max (date_max_len h)
      (String.length (author_rel_date (entry_commit entry))) /\
  name_max_len (note_entry entry h) =
    Nat.max (name_max_len h)
      (String.length (author_name (entry_commit entry))).
Proof.
  unfold note_entry.
  destruct (Nat.ltb_spec (date_max_len h)
              (String.length (author_rel_date (entry_commit entry))));
    simpl;
    destruct (Nat.ltb_spec (name_max_len h)
                (String.length (author_name (entry_commit entry))));
    simpl; lia.
Qed.

Lemma note_entry_static (entry : LogEntry) (h : History) :
  _repo (note_entry entry h) = _repo h /\
  revision_0 (note_entry entry h) = revision_0 h /\
  files (note_entry entry h) = files h.
Proof.
  unfold note_entry.
  destruct (date_max_len h <? _)%nat; simpl;
    destruct (_ <? _)%nat; simpl; auto.
Qed.

Lemma fill_up_step_facts (h : History) (c : Commit) :
  let h' := fill_up_step h c in
  commit_list h' = commit_list h ++ [c] /\
  _repo h' = _repo h /\ revision_0 h' = revision_0 h /\ files h' = files h /\
  (date_max_len h <= date_max_len h')%nat /\
  (name_max_len h <= name_max_len h')%nat /\
  (String.length (author_rel_date c) <= date_max_len h')%nat /\
  (String.length (author_name c) <= name_max_len h')%nat.
Proof.
  unfold fill_up_step.
  match goal with
  | |- context [note_entry ?e ?h0] =>
      destruct (note_entry_fields e h0) as (Hc & _);
      destruct (note_entry_static e h0) as (Hr & Hv & Hf);
      destruct (note_entry_maxima e h0) as (Hd & Hn)
  end.
  simpl in *. rewrite Hc, Hr, Hv, Hf, Hd, Hn. repeat split; lia.
Qed.

Lemma widths_cover_mono (h h' : History) (cl : list Commit) :
  (date_max_len h <= date_max_len h')%nat ->
  (name_max_len h <= name_max_len h')%nat ->
  Forall (fun c =>
            (String.length (author_rel_date c) <= date_max_len h)%nat /\
            (String.length (author_name c) <= name_max_len h)%nat) cl ->
  Forall (fun c =>
            (String.length (author_rel_date c) <= date_max_len h')%nat /\
            (String.length (author_name c) <= name_max_len h')%nat) cl.
Proof.
  intros Hd Hn HF. eapply Forall_impl; [exact HF|].
  intros c [H1 H2]. simpl. split; lia.
Qed.

Lemma fill_up_loop_facts (commits : list Commit) :
  forall h : History,
    let h' := fold_left fill_up_step commits h in
    _repo h' = _repo h /\ revision_0 h' = revision_0 h /\
    files h' = files h /\
    (date_max_len h <= date_max_len h')%nat /\
    (name_max_len h <= name_max_len h')%nat /\
    (widths_cover h -> widths_cover h').
Proof.
  induction commits as [|c commits IH]; intros h; cbn [fold_left].
  - simpl. auto 10.
  - destruct (fill_up_step_facts h c)
      as (Hc & Hr & Hv & Hf & Hd & Hn & Hcd & Hcn).
    destruct (IH (fill_up_step h c)) as (Ir & Iv & If & Id & In' & Iw).
    simpl in *. rewrite Ir, Iv, If, Hr, Hv, Hf.
    repeat split; try lia.
    intros Hw. apply Iw. unfold widths_cover. rewrite Hc.
    apply Forall_app. split.
    + apply (widths_cover_mono h); assumption.
    + constructor; [auto|constructor].
Qed.

Lemma fill_up_facts (amount : Z) (h : History) :
  let h' := state_of (fill_up amount h) in
  _repo h' = _repo h /\ revision_0 h' = revision_0 h /\
  files h' = files h /\
  (date_max_len h <= date_max_len h')%nat /\
  (name_max_len h <= name_max_len h')%nat /\
  (widths_cover h -> widths_cover h') /\
  (in_step h -> in_step h').
Proof.
  destruct (Z.le_gt_cases amount 0) as [Hle|Hgt].
  - rewrite (fill_up_guard amount h Hle). simpl. auto 10.
  - destruct (fill_up_positive amount h ltac:(lia))
      as (h' & Hr & _ & Hc & Hl & _).
    assert (Hstep : in_step h -> in_step h').
    { unfold in_step. intros Hs. rewrite Hl, Hc, map_app, Hs, map_map.
      simpl. rewrite map_id. reflexivity. }
    rewrite Hr. simpl. clear Hc Hl.
    unfold fill_up in Hr.
    destruct (Z.leb_spec amount 0); [lia|]. injection Hr as <-.
    match goal with
    | |- context [fold_left fill_up_step ?cs ?h0] =>
        destruct (fill_up_loop_facts cs h0) as (Ir & Iv & If & Id & In' & Iw)
    end.
    simpl in *. auto 10.
Qed.

(** ** [_unfold] and [_fold], row by row *)

Lemma map_list_insert_at (A B : Type) (f : A -> B) (k : nat) (a : A)
    (l : list A) :
  map f (list_insert_at k a l) = list_insert_at k (f a) (map f l).
Proof.
  unfold list_insert_at. rewrite map_app. simpl.
  rewrite firstn_map, skipn_map. reflexivity.
Qed.

Lemma top_level_list_insert_at (k : nat) (c : Commit) (l : list Commit) :
  level c <> 0 -> top_level (list_insert_at k c l) = top_level l.
Proof.
  intros Hc. unfold top_level, list_insert_at.
  rewrite List.filter_app. simpl.
  destruct (Z.eqb_spec (level c) 0) as [H0|_]; [contradiction|].
  rewrite <- List.filter_app, take_drop. reflexivity.
Qed.

Lemma Forall_list_insert_at (A : Type) (P : A -> Prop) (k : nat) (a : A)
    (l : list A) :
  P a -> Forall P l -> Forall P (list_insert_at k a l).
Proof.
  intros Ha Hl. unfold list_insert_at. apply Forall_app. split.
  - apply Forall_take. exact Hl.
  - constructor; [exact Ha|]. apply Forall_drop. exact Hl.
Qed.

Lemma _unfold_step_facts (line_number : nat) (h : History) (index : nat)
    (c : Commit) :
  let r := _unfold_step line_number (h, index) c in
  snd r = S index /\
  commit_list (fst r) =
    list_insert_at (line_number + index) c (commit_list h) /\
  log_entry_list (fst r) =
    list_insert_at (line_number + index)
      (mkLogEntry c (working_dir h) (search_state h)) (log_entry_list h) /\
  (date_max_len h <= date_max_len (fst r))%nat /\
  (name_max_len h <= name_max_len (fst r))%nat /\
  (String.length (author_rel_date c) <= date_max_len (fst r))%nat /\
  (String.length (author_name c) <= name_max_len (fst r))%nat.
Proof.
  pose proof (note_entry_fields
                (mkLogEntry c (working_dir h) (search_state h)) h)
    as (Hc & Hl & _ & _ & _ & Hw & Hs).
  pose proof (note_entry_maxima
                (mkLogEntry c (working_dir h) (search_state h)) h)
    as (Hd & Hn).
  simpl in *. rewrite Hc, Hl, Hd, Hn. repeat split; lia.
Qed.

Lemma _unfold_loop_facts (line_number : nat) (children : list Commit) :
  forall (h : History) (index : nat),
    let r := fold_left (_unfold_step line_number) children (h, index) in
    (in_step h -> in_step (fst r)) /\
    (widths_cover h -> widths_cover (fst r)) /\
    (date_max_len h <= date_max_len (fst r))%nat /\
    (name_max_len h <= name_max_len (fst r))%nat /\
    (Forall (fun k => level k <> 0) children ->
     top_level (commit_list (fst r)) = top_level (commit_list h)).
Proof.
  induction children as [|c children IH]; intros h index; cbn [fold_left].
  - simpl. auto 10.
  - destruct (_unfold_step_facts line_number h index c)
      as (E1 & Ec & El & Ed & En & Ecd & Ecn).
    destruct (_unfold_step line_number (h, index) c) as [h1 index1].
    simpl in E1, Ec, El, Ed, En, Ecd, Ecn. subst index1.
    destruct (IH h1 (S index)) as (Is & Iw & Id & In' & It).
    split; [|split; [|split; [|split]]]; try lia.
    + intros Hs. apply Is. unfold in_step in *.
      rewrite El, Ec, map_list_insert_at, Hs. reflexivity.
    + intros Hw. apply Iw. unfold widths_cover in *. rewrite Ec.
      apply Forall_list_insert_at; [auto|].
      apply (widths_cover_mono h); assumption.
    + intros Hz. inversion Hz as [|? ? Hc Hz']; subst.
      rewrite (It Hz'), Ec. apply top_level_list_insert_at. exact Hc.
Qed.

Lemma _unfold_facts (child_history : string -> Commit -> list Commit)
    (i : nat) (c : Commit) (h : History) :
  let h' := _unfold child_history i c h in
  (in_step h -> in_step h') /\
  (widths_cover h -> widths_cover h') /\
  (date_max_len h <= date_max_len h')%nat /\
  (name_max_len h <= name_max_len h')%nat /\
  (Forall (fun k => level k <> 0) (child_history (working_dir h) c) ->
   top_level (commit_list h') = top_level (commit_list h)) /\
  fetches h' = fetches h /\ cursor_position h' = cursor_position h.
Proof.
  unfold _unfold.
  destruct (_unfold_loop_facts i (child_history (working_dir h) c) h 1%nat)
    as (Hs & Hw & Hd & Hn & Ht).
  destruct (_unfold_loop_counts i (child_history (working_dir h) c) h 1%nat)
    as (_ & _ & _ & Hf & Hp & _).
  destruct (fold_left (_unfold_step i) _ (h, 1%nat)) as [h1 index].
  simpl in *. auto 10.
Qed.

(** [_fold] only ever deletes: what holds of every record before holds
    of every record after, and the maxima stay. *)
Lemma _fold_loop_keeps (c : Commit) (pos : nat) (P : Commit -> Prop)
    (snapshot : list Commit) :
  forall h : History,
    let h' := state_of (_fold_loop snapshot pos c h) in
    date_max_len h' = date_max_len h /\ name_max_len h' = name_max_len h /\
    (Forall P (commit_list h) -> Forall P (commit_list h')).
Proof.
  induction snapshot as [|cur snapshot IH]; intros h; simpl; [auto|].
  destruct (level c <? level cur); simpl; [|auto].
  unfold del.
  destruct (pos <? length (commit_list h))%nat; simpl; [|auto].
  destruct (pos <? length (log_entry_list h))%nat; simpl.
  - destruct (IH (set_log_entry_list (delete pos (log_entry_list h))
                    (set_commit_list (delete pos (commit_list h)) h)))
      as (Hd & Hn & HP).
    simpl in *. rewrite Hd, Hn. repeat split; auto.
    intros HF. apply HP. apply Forall_delete. exact HF.
  - repeat split; auto. apply Forall_delete.
Qed.

Lemma top_level_deeper_run (c : Commit) (run : list Commit) :
  0 <= level c -> Forall (fun x => level c < level x) run ->
  top_level run = [].
Proof.
  intros Hlevel Hrun. unfold top_level.
  induction run as [|r run IH]; [reflexivity|].
  inversion Hrun as [|? ? Hr Hrun']; subst. simpl.
  destruct (Z.eqb_spec (level r) 0); [lia|]. apply IH. exact Hrun'.
Qed.

(** With the entries in step, [_fold] returns, stays in step, and takes
    away deeper records only. *)
Lemma _fold_in_step (pos : nat) (c : Commit) (h : History) :
  in_step h ->
  exists h',
    _fold pos c h = Return tt h' /\ in_step h' /\
    (0 <= level c -> top_level (commit_list h') = top_level (commit_list h)).
Proof.
  intros Hs.
  assert (Hlen : (length (commit_list h) <= length (log_entry_list h))%nat).
  { unfold in_step in Hs. rewrite <- Hs, length_map. lia. }
  destruct (_fold_removes_run pos c h Hlen)
    as (run & rest & h' & Hsplit & Hrun & _ & Hfold & Hc & Hl).
  exists h'. split; [exact Hfold|]. split.
  - unfold in_step in *.
    rewrite Hl, Hc, map_app, <- firstn_map, <- skipn_map, Hs.
    f_equal. rewrite <- drop_drop, Hsplit, drop_app_length. reflexivity.
  - intros Hlevel. rewrite Hc.
    rewrite <- (take_drop pos (commit_list h)) at 2.
    rewrite Hsplit. unfold top_level. rewrite !List.filter_app.
    fold (top_level run).
    rewrite (top_level_deeper_run c run Hlevel Hrun). reflexivity.
Qed.

(** ** The forward search *)

Lemma fill_up_appends (amount : Z) (h : History) :
  exists more,
    commit_list (state_of (fill_up amount h)) = commit_list h ++ more.
Proof.
  destruct (Z.le_gt_cases amount 0) as [Hle|Hgt].
  - rewrite (fill_up_guard amount h Hle). exists []. simpl.
    rewrite app_nil_r. reflexivity.
  - destruct (fill_up_positive amount h ltac:(lia))
      as (h' & -> & _ & Hc & _).
    eexists. exact Hc.
Qed.

Lemma fill_up_search_state (amount : Z) (h : History) :
  search_state (state_of (fill_up amount h)) = search_state h.
Proof.
  destruct (Z.le_gt_cases amount 0) as [Hle|Hgt].
  - rewrite (fill_up_guard amount h Hle). reflexivity.
  - unfold fill_up. destruct (Z.leb_spec amount 0); [lia|]. simpl.
    match goal with
    | |- context [fold_left fill_up_step ?cs ?h0] =>
        destruct (fill_up_loop_fields cs h0) as (_ & _ & _ & _ & _ & _ & Hs)
    end.
    exact Hs.
Qed.

(** The forward loop only appends to the sequence, and keeps what
    [fill_up] keeps. *)
Lemma forward_loop_facts (screen_height : Z) (needle : string)
    (new_position : Z) (fuel : nat) :
  forall (index : Z) (h : History) (o : outcome (Z * Z)),
    forward_loop screen_height fuel needle new_position index h = Some o ->
    (exists more, commit_list (state_of o) = commit_list h ++ more) /\
    (in_step h -> in_step (state_of o)) /\
    (widths_cover h -> widths_cover (state_of o)) /\
    (date_max_len h <= date_max_len (state_of o))%nat /\
    (name_max_len h <= name_max_len (state_of o))%nat /\
    search_state (state_of o) = search_state h.
Proof.
  assert (Hrefl : forall h : History,
             (exists more, commit_list h = commit_list h ++ more) /\
             (in_step h -> in_step h) /\
             (widths_cover h -> widths_cover h) /\
             (date_max_len h <= date_max_len h)%nat /\
             (name_max_len h <= name_max_len h)%nat /\
             search_state h = search_state h).
  { intros h. split; [exists []; rewrite app_nil_r; reflexivity|].
    auto 10. }
  induction fuel as [|fuel IH]; intros index h o; simpl; [discriminate|].
  destruct (getitem (commit_list h) index) as [commit|].
  - destruct (forward_match needle commit).
    + intros [= <-]. apply Hrefl.
    + apply IH.
  - pose proof (fill_up_facts screen_height h)
      as (_ & _ & _ & Hd & Hn & Hw & Hs).
    pose proof (fill_up_appends screen_height h) as [more1 Hmore].
    pose proof (fill_up_search_state screen_height h) as Hss.
    assert (Hvia : forall o' : outcome (Z * Z),
               (exists more,
                   commit_list (state_of o') =
                   commit_list (state_of (fill_up screen_height h)) ++ more) /\
               (in_step (state_of (fill_up screen_height h)) ->
                in_step (state_of o')) /\
               (widths_cover (state_of (fill_up screen_height h)) ->
                widths_cover (state_of o')) /\
               (date_max_len (state_of (fill_up screen_height h)) <=
                date_max_len (state_of o'))%nat /\
               (name_max_len (state_of (fill_up screen_height h)) <=
                name_max_len (state_of o'))%nat /\
               search_state (state_of o') =
                 search_state (state_of (fill_up screen_height h)) ->
               (exists more, commit_list (state_of o') = commit_list h ++ more) /\
               (in_step h -> in_step (state_of o')) /\
               (widths_cover h -> widths_cover (state_of o')) /\
               (date_max_len h <= date_max_len (state_of o'))%nat /\
               (name_max_len h <= name_max_len (state_of o'))%nat /\
               search_state (state_of o') = search_state h).
    { intros o' ([more2 Hm2] & Hs2 & Hw2 & Hd2 & Hn2 & Hss2).
      split; [exists (more1 ++ more2);
              rewrite Hm2, Hmore, app_assoc; reflexivity|].
      repeat split; auto; try lia. congruence. }
    destruct (fill_up screen_height h) as [fetched h1|e h1]; simpl in *.
    + destruct (fetched =? 0).
      * intros [= <-]. apply Hvia. apply Hrefl.
      * destruct (getitem (commit_list h1) index) as [commit|].
        -- destruct (forward_match needle commit).
           ++ intros [= <-]. apply Hvia. apply Hrefl.
           ++ intros Ho. apply Hvia. apply (IH _ _ _ Ho).
        -- intros [= <-]. apply Hvia. apply Hrefl.
    + intros [= <-]. apply Hvia. apply Hrefl.
Qed.

(** What the loop reports when it ends with a result: the position it
    was given, or the first row from [index] on that matches. *)
Lemma forward_loop_sound (screen_height : Z) (needle : string)
    (new_position : Z) (fuel : nat) :
  forall (index : Z) (h : History) (found index' : Z) (h' : History),
    0 <= index ->
    forward_loop screen_height fuel needle new_position index h =
      Some (Return (found, index') h') ->
    found = new_position \/
    (found = index' /\
     first_forward_match needle (commit_list h') index index').
Proof.
  induction fuel as [|fuel IH]; intros index h found index' h' Hindex;
    simpl; [discriminate|].
  assert (Hhit : forall (c : Commit) (h0 : History),
             getitem (commit_list h0) index = Some c ->
             forward_match needle c = true ->
             first_forward_match needle (commit_list h0) index index).
  { intros c h0 Hget Hm. split; [lia|]. split; [eauto|]. intros j Hj. lia. }
  assert (Hmiss : forall (c : Commit) (h0 : History),
             getitem (commit_list h0) index = Some c ->
             forward_match needle c = false ->
             forward_loop screen_height fuel needle new_position (index + 1)
               h0 = Some (Return (found, index') h') ->
             found = new_position \/
             (found = index' /\
              first_forward_match needle (commit_list h') index index')).
  { intros c h0 Hget Hm Ho.
    destruct (forward_loop_facts _ _ _ _ _ _ _ Ho) as ([more Hmore] & _).
    simpl in Hmore.
    destruct (IH (index + 1) h0 found index' h' ltac:(lia) Ho)
      as [Hnp|[Hf (Hle & Hfound & Hskip)]]; [left; exact Hnp|].
    right. split; [exact Hf|]. split; [lia|]. split; [exact Hfound|].
    intros j Hj. destruct (Z.eq_dec j index) as [->|Hne].
    - exists c. split; [|exact Hm]. rewrite Hmore.
      apply getitem_app_l; assumption.
    - apply Hskip. lia. }
  destruct (getitem (commit_list h) index) as [commit|] eqn:Hget.
  - destruct (forward_match needle commit) eqn:Hm.
    + intros [= <- <- <-]. right. split; [reflexivity|]. eauto.
    + apply (Hmiss commit h Hget Hm).
  - destruct (fill_up screen_height h) as [fetched h1|e h1];
      [|discriminate].
    destruct (fetched =? 0).
    + intros [= <- <- <-]. left. reflexivity.
    + destruct (getitem (commit_list h1) index) as [commit|] eqn:Hget1;
        [|discriminate].
      destruct (forward_match needle commit) eqn:Hm.
      * intros [= <- <- <-]. right. split; [reflexivity|]. eauto.
      * apply (Hmiss commit h1 Hget1 Hm).
Qed.

Lemma top_level_all (l : list Commit) :
  Forall (fun c => level c = 0) l -> top_level l = l.
Proof.
  unfold top_level. induction l as [|a l IH]; intros Hl; [reflexivity|].
  inversion Hl as [|? ? Ha Hl']; subst. simpl.
  rewrite Ha, (IH Hl'). reflexivity.
Qed.

(** With a walker that serves the windows of a finite log of top-level
    commits, the forward loop from a row of the sequence, or from the row
    right after it, ends with a result before [forward_budget] runs out. *)
Lemma forward_loop_returns (screen_height : Z) (needle : string)
    (new_position : Z) (log : list Commit) (fuel : nat) :
  forall (index : Z) (h : History),
    0 < screen_height ->
    first_parent_log (_repo h) (revision_0 h) (files h) log ->
    Forall (fun c => level c = 0) log ->
    0 <= index <= Z.of_nat (length (commit_list h)) ->
    (forward_budget log h index < fuel)%nat ->
    exists found h',
      forward_loop screen_height fuel needle new_position index h =
        Some (Return found h').
Proof.
  induction fuel as [|fuel IH]; intros index h Hsh Hlog Hzero Hindex Hfuel;
    [lia|].
  simpl. destruct (getitem (commit_list h) index) as [commit|] eqn:Hget.
  - destruct (forward_match needle commit); [eauto|].
    apply getitem_Some_lt in Hget; [|lia].
    apply IH; auto; [lia|]. unfold forward_budget in *. lia.
  - apply getitem_None_ge in Hget; [|lia].
    destruct (fill_up_positive screen_height h Hsh)
      as (h1 & Hr & _ & Hc & _).
    pose proof (fill_up_facts screen_height h) as (Hrepo & Hrev & Hfiles & _).
    rewrite Hr in *. simpl in Hrepo, Hrev, Hfiles.
    rewrite (Hlog _ screen_height Hsh) in Hc.
    rewrite (Hlog _ screen_height Hsh).
    set (skip := length (top_level (commit_list h))) in *.
    set (commits := take (Z.to_nat screen_height) (drop skip log)) in *.
    destruct (Z.eqb_spec (Z.of_nat (length commits)) 0) as [Hnone|Hsome];
      [eauto|].
    assert (Hn : (length commits <= length log - skip)%nat).
    { unfold commits. rewrite length_take, length_drop. lia. }
    assert (Hget1 : exists c, getitem (commit_list h1) index = Some c).
    { rewrite getitem_nonneg by lia.
      apply lookup_lt_is_Some. rewrite Hc, length_app. lia. }
    destruct Hget1 as [c ->].
    destruct (forward_match needle c); [eauto|].
    apply IH; auto.
    + rewrite Hrepo, Hrev, Hfiles. exact Hlog.
    + rewrite Hc, length_app. lia.
    + unfold forward_budget in *. rewrite Hc, length_app.
      unfold top_level at 1. rewrite List.filter_app.
      fold (top_level (commit_list h)). fold (top_level commits).
      rewrite (top_level_all commits), length_app.
      * fold skip. lia.
      * unfold commits. apply Forall_take, Forall_drop. exact Hzero.
Qed.

(** X1. A forward search from a cursor that is not negative only appends
    to the sequence, and when it ends with a result the cursor either
    stays or moves to the first row, from the start row on, that matches:
    every row it passed exists and does not match. With the current
    position excluded the start row is the one after the cursor, so the
    cursor never lands on the row it started from because of a match. *)
Theorem forward_search_first_match (screen_height : Z) (fuel : nat)
    (st : SearchState) (incl : bool) (count : Z) (h : History) :
  direction st = FORWARD ->
  0 <= forward_start incl h ->
  match search screen_height fuel st incl count h with
  | Some (Return _ h') =>
      (exists more, commit_list h' = commit_list h ++ more) /\
      (cursor_position h' = cursor_position h \/
       (x (cursor_position h') = x (cursor_position h) /\
        forward_start incl h <= y (cursor_position h') /\
        first_forward_match (text st) (commit_list h')
          (forward_start incl h) (y (cursor_position h'))))
  | _ => True
  end.
Proof.
  intros Hdir Hstart. unfold search. rewrite Hdir. simpl.
  fold (forward_start incl h).
  destruct (forward_loop _ _ _ _ _ _) as [[[found index'] h'|e h']|] eqn:Ho;
    try exact I.
  pose proof (forward_loop_facts _ _ _ _ _ _ _ Ho) as (Hmore & _).
  pose proof (forward_loop_fields _ _ _ _ _ _ _ Ho) as [_ Hcur].
  pose proof (forward_loop_sound _ _ _ _ _ _ _ _ _ Hstart Ho) as Hs.
  unfold reposition. simpl in *. rewrite Hcur.
  destruct (Z.eqb_spec found (y (cursor_position h))) as [Heq|Hne]; simpl.
  - split; [exact Hmore|]. left. exact Hcur.
  - split; [exact Hmore|]. right.
    destruct Hs as [Hnp|[-> Hfirst]]; [contradiction|].
    split; [reflexivity|]. split; [apply Hfirst|exact Hfirst].
Qed.

Lemma forward_search_first_match_witness :
  direction (mkSearchState "release" FORWARD) = FORWARD /\
  0 <= forward_start false (sample.at_row 0 sample.two_rows) /\
  match search 2 6 (mkSearchState "release" FORWARD) false 1
          (sample.at_row 0 sample.two_rows) with
  | Some (Return _ h') =>
      (exists more,
          commit_list h' =
          commit_list (sample.at_row 0 sample.two_rows) ++ more) /\
      (cursor_position h' =
         cursor_position (sample.at_row 0 sample.two_rows) \/
       (x (cursor_position h') =
          x (cursor_position (sample.at_row 0 sample.two_rows)) /\
        forward_start false (sample.at_row 0 sample.two_rows) <=
          y (cursor_position h') /\
        first_forward_match "release" (commit_list h')
          (forward_start false (sample.at_row 0 sample.two_rows))
          (y (cursor_position h'))))
  | _ => True
  end.
Proof.
  split; [reflexivity|]. split; [vm_compute; discriminate|].
  exact (forward_search_first_match 2 6 (mkSearchState "release" FORWARD)
           false 1 (sample.at_row 0 sample.two_rows) eq_refl
           ltac:(vm_compute; discriminate)).
Defined.

Lemma sample_log_top_level : Forall (fun c => level c = 0) sample.log.
Proof. repeat constructor. Qed.

Lemma sample_first_parent_log (h : History) :
  _repo h = sample.repo ->
  first_parent_log (_repo h) (revision_0 h) (files h) sample.log.
Proof. intros -> skip max_count _. reflexivity. Qed.

(** X2. When the walker serves the windows of a finite log of top-level
    commits and the screen height is positive, a forward search that
    starts on a row of the sequence, or on the row right after its end,
    always ends with a result and never raises: [forward_budget] rounds
    suffice, the commits not yet fetched plus the rows after the start. *)
Theorem forward_search_ends (screen_height : Z) (fuel : nat)
    (st : SearchState) (incl : bool) (count : Z) (h : History)
    (log : list Commit) :
  direction st = FORWARD ->
  0 < screen_height ->
  first_parent_log (_repo h) (revision_0 h) (files h) log ->
  Forall (fun c => level c = 0) log ->
  0 <= forward_start incl h <= Z.of_nat (length (commit_list h)) ->
  (forward_budget log h (forward_start incl h) < fuel)%nat ->
  exists h', search screen_height fuel st incl count h = Some (Return tt h').
Proof.
  intros Hdir Hsh Hlog Hzero Hstart Hfuel. unfold search. rewrite Hdir.
  simpl. fold (forward_start incl h).
  destruct (forward_loop_returns screen_height (text st)
              (y (cursor_position h)) log fuel (forward_start incl h)
              (set_search_state (Some st) h) Hsh Hlog Hzero Hstart Hfuel)
    as (found & h' & ->).
  eauto.
Qed.

Lemma forward_search_ends_witness :
  direction (mkSearchState "Initial" FORWARD) = FORWARD /\
  0 < 2 /\
  first_parent_log (_repo (sample.at_row 0 sample.two_rows))
    (revision_0 (sample.at_row 0 sample.two_rows))
    (files (sample.at_row 0 sample.two_rows)) sample.log /\
  Forall (fun c => level c = 0) sample.log /\
  0 <= forward_start false (sample.at_row 0 sample.two_rows)
    <= Z.of_nat (length (commit_list (sample.at_row 0 sample.two_rows))) /\
  (forward_budget sample.log (sample.at_row 0 sample.two_rows)
     (forward_start false (sample.at_row 0 sample.two_rows)) < 6)%nat /\
  exists h',
    search 2 6 (mkSearchState "Initial" FORWARD) false 1
      (sample.at_row 0 sample.two_rows) = Some (Return tt h').
Proof.
  assert (H3 : first_parent_log (_repo (sample.at_row 0 sample.two_rows))
                 (revision_0 (sample.at_row 0 sample.two_rows))
                 (files (sample.at_row 0 sample.two_rows)) sample.log)
    by (apply sample_first_parent_log; reflexivity).
  assert (H5 : 0 <= forward_start false (sample.at_row 0 sample.two_rows)
               <= Z.of_nat
                    (length (commit_list (sample.at_row 0 sample.two_rows))))
    by (vm_compute; split; discriminate).
  assert (H6 : (forward_budget sample.log (sample.at_row 0 sample.two_rows)
                  (forward_start false (sample.at_row 0 sample.two_rows))
                < 6)%nat)
    by (vm_compute; lia).
  split; [reflexivity|]. split; [lia|]. split; [exact H3|].
  split; [exact sample_log_top_level|]. split; [exact H5|].
  split; [exact H6|].
  exact (forward_search_ends 2 6 (mkSearchState "Initial" FORWARD) false 1
           (sample.at_row 0 sample.two_rows) sample.log eq_refl
           ltac:(lia) H3 sample_log_top_level H5 H6).
Defined.

(** ** Rendering a row *)

Lemma getitem_map (A B : Type) (f : A -> B) (l : list A) (index : Z) :
  getitem (map f l) index = option_map f (getitem l index).
Proof.
  unfold getitem. rewrite length_map.
  change (map f l) with (f <$> l). rewrite !list_lookup_fmap.
  destruct (0 <=? index); [|destruct (_ <=? index)]; try reflexivity;
    destruct (l !! _); reflexivity.
Qed.

Lemma map_setitem_same (A B : Type) (f : A -> B) (l : list A) (index : Z)
    (a a' : A) :
  getitem l index = Some a -> f a' = f a ->
  map f (setitem l index a') = map f l.
Proof.
  unfold getitem, setitem. intros Hget Hf.
  change (map f) with (fmap (M := list) f).
  destruct (0 <=? index).
  - rewrite list_fmap_insert. apply list_insert_id.
    rewrite list_lookup_fmap, Hget, Hf. reflexivity.
  - destruct (_ <=? index); [|discriminate].
    rewrite list_fmap_insert. apply list_insert_id.
    rewrite list_lookup_fmap, Hget, Hf. reflexivity.
Qed.

Lemma getitem_setitem (A : Type) (l : list A) (index : Z) (a a' : A) :
  getitem l index = Some a -> getitem (setitem l index a') index = Some a'.
Proof.
  unfold getitem, setitem. intros Hget.
  destruct (0 <=? index).
  - apply list_lookup_insert_eq. apply lookup_lt_Some in Hget. exact Hget.
  - rewrite length_insert. destruct (_ <=? index); [|discriminate].
    apply list_lookup_insert_eq. apply lookup_lt_Some in Hget. exact Hget.
Qed.

Lemma _render_commit_facts (columns : LogEntry -> nat -> nat -> list Piece)
    (commit : Commit) (line_number : Z) (h : History) :
  let o := _render_commit columns commit line_number h in
  commit_list (state_of o) = commit_list h /\
  fetches (state_of o) = fetches h /\
  cursor_position (state_of o) = cursor_position h /\
  line_count (state_of o) = line_count h /\
  date_max_len (state_of o) = date_max_len h /\
  name_max_len (state_of o) = name_max_len h /\
  (in_step h -> in_step (state_of o)).
Proof.
  unfold _render_commit.
  destruct (getitem (log_entry_list h) line_number) as [entry|] eqn:Hget;
    simpl; [|auto 10].
  repeat split. unfold in_step. simpl. intros Hs.
  rewrite (map_setitem_same _ _ entry_commit _ _ entry); auto.
Qed.

Lemma get_line_facts (columns : LogEntry -> nat -> nat -> list Piece)
    (line_number : Z) (h : History) :
  let o := get_line columns line_number h in
  (in_step h -> in_step (state_of o)) /\
  (widths_cover h -> widths_cover (state_of o)) /\
  (date_max_len h <= date_max_len (state_of o))%nat /\
  (name_max_len h <= name_max_len (state_of o))%nat /\
  line_count (state_of o) = line_count h /\
  cursor_position (state_of o) = cursor_position h.
Proof.
  unfold get_line.
  set (amount := line_number - Z.of_nat (length (commit_list h)) + 1).
  assert (Hfill : forall o1 : outcome Z,
             (in_step h -> in_step (state_of o1)) /\
             (widths_cover h -> widths_cover (state_of o1)) /\
             (date_max_len h <= date_max_len (state_of o1))%nat /\
             (name_max_len h <= name_max_len (state_of o1))%nat /\
             line_count (state_of o1) = line_count h /\
             cursor_position (state_of o1) = cursor_position h ->
             let o :=
               match o1 with
               | Return _ h1 =>
                   match getitem (commit_list h1) line_number with
                   | Some commit => _render_commit columns commit line_number h1
                   | None => Return [(EmptyString, EmptyString)] h1
                   end
               | Raise e h1 => Raise e h1
               end in
             (in_step h -> in_step (state_of o)) /\
             (widths_cover h -> widths_cover (state_of o)) /\
             (date_max_len h <= date_max_len (state_of o))%nat /\
             (name_max_len h <= name_max_len (state_of o))%nat /\
             line_count (state_of o) = line_count h /\
             cursor_position (state_of o) = cursor_position h).
  { intros [a h1|e h1]; simpl; [|auto].
    intros (Hs & Hw & Hd & Hn & Hl & Hp).
    destruct (getitem (commit_list h1) line_number) as [commit|]; simpl;
      [|auto 10].
    destruct (_render_commit_facts columns commit line_number h1)
      as (Rc & _ & Rp & Rl & Rd & Rn & Rs).
    simpl in *. rewrite Rl, Rp, Rd, Rn. repeat split; auto.
    intros Hw0. specialize (Hw Hw0). unfold widths_cover in *.
    rewrite Rc, Rd, Rn. exact Hw. }
  destruct (Z.ltb_spec (Z.of_nat (length (commit_list h)) - 1) line_number).
  - apply (Hfill (fill_up amount h)).
    destruct (fill_up_facts amount h) as (_ & _ & _ & Hd & Hn & Hw & Hs).
    destruct (fill_up_fields amount h) as (Hl & Hp).
    simpl in *. auto 10.
  - apply (Hfill (Return 0 h)). simpl. auto 10.
Qed.

(** ** The invariants of the sequence *)

Lemma reposition_lists (found : Z * Z) (h : History) :
  commit_list (reposition found h) = commit_list h /\
  log_entry_list (reposition found h) = log_entry_list h /\
  date_max_len (reposition found h) = date_max_len h /\
  name_max_len (reposition found h) = name_max_len h /\
  fetches (reposition found h) = fetches h.
Proof.
  destruct found as [new_position index]. unfold reposition.
  destruct (new_position =? y (cursor_position h)); simpl; auto.
Qed.

Lemma search_facts (screen_height : Z) (fuel : nat) (st : SearchState)
    (incl : bool) (count : Z) (h : History) (o : outcome unit) :
  search screen_height fuel st incl count h = Some o ->
  (in_step h -> in_step (state_of o)) /\
  (widths_cover h -> widths_cover (state_of o)) /\
  (date_max_len h <= date_max_len (state_of o))%nat /\
  (name_max_len h <= name_max_len (state_of o))%nat.
Proof.
  unfold search. destruct (direction st).
  - destruct (forward_loop _ _ _ _ _ _) as [[found h'|e h']|] eqn:Hloop;
      [| |discriminate]; intros [= <-];
      apply forward_loop_facts in Hloop as (_ & Hs & Hw & Hd & Hn & _);
      simpl in *; [|auto].
    destruct (reposition_lists found h') as (Rc & Rl & Rd & Rn & _).
    unfold in_step, widths_cover in *. rewrite Rc, Rl, Rd, Rn. auto.
  - destruct (backward_loop _ _ _ _ _) as [[e|found]|];
      [| |discriminate]; intros [= <-]; simpl; [auto|].
    destruct (reposition_lists found (set_search_state (Some st) h))
      as (Rc & Rl & Rd & Rn & _).
    unfold in_step, widths_cover in *. rewrite Rc, Rl, Rd, Rn. simpl. auto.
Qed.

Lemma toggle_fold_facts (child_history : string -> Commit -> list Commit)
    (is_folded : list Commit -> nat -> bool) (i : nat) (h : History) :
  let h' := state_of (toggle_fold child_history is_folded i h) in
  (in_step h -> in_step h') /\
  (widths_cover h -> widths_cover h') /\
  (date_max_len h <= date_max_len h')%nat /\
  (name_max_len h <= name_max_len h')%nat /\
  fetches h' = fetches h /\ cursor_position h' = cursor_position h.
Proof.
  unfold toggle_fold.
  destruct (commit_list h !! i) as [c|]; simpl; [|auto 10].
  destruct (is_merge c); simpl; [|auto 10].
  destruct (is_folded (commit_list h) i); simpl.
  - destruct (_unfold_facts child_history i c h)
      as (Hs & Hw & Hd & Hn & _ & Hf & Hp). auto 10.
  - destruct (_fold_loop_fields c (i + 1) (drop (i + 1) (commit_list h)) h)
      as (_ & Hf & Hp).
    destruct (_fold_loop_keeps c (i + 1)
                (fun k =>
                   (String.length (author_rel_date k) <= date_max_len h)%nat /\
                   (String.length (author_name k) <= name_max_len h)%nat)
                (drop (i + 1) (commit_list h)) h) as (Hd & Hn & Hw).
    unfold _fold. simpl in *. rewrite Hd, Hn, Hf, Hp.
    repeat split; auto.
    + intros Hs. destruct (_fold_in_step (i + 1) c h Hs) as (h' & Hr & Hs' & _).
      unfold _fold in Hr. rewrite Hr. exact Hs'.
    + intros Hw0. unfold widths_cover. rewrite Hd, Hn. apply Hw. exact Hw0.
Qed.

(** X3. The log entries stay in step with the sequence: when every row
    has the entry of its commit, it still has after [fill_up], [_unfold],
    [_fold] (which then returns), [toggle_fold], [search] and [get_line];
    and [__init__] builds an object in which it holds. *)
Theorem entries_stay_in_step
    (child_history : string -> Commit -> list Commit)
    (is_folded : list Commit -> nat -> bool) (screen_height : Z)
    (columns : LogEntry -> nat -> nat -> list Piece) :
  (forall repo working_dir revision_0 files,
     in_step
       (state_of (__init__ screen_height repo working_dir revision_0 files))) /\
  (forall amount h, in_step h -> in_step (state_of (fill_up amount h))) /\
  (forall i c h, in_step h -> in_step (_unfold child_history i c h)) /\
  (forall pos c h,
     in_step h -> exists h', _fold pos c h = Return tt h' /\ in_step h') /\
  (forall i h,
     in_step h ->
     in_step (state_of (toggle_fold child_history is_folded i h))) /\
  (forall fuel st incl count h,
     in_step h ->
     match search screen_height fuel st incl count h with
     | Some o => in_step (state_of o)
     | None => True
     end) /\
  (forall line_number h,
     in_step h -> in_step (state_of (get_line columns line_number h))).
Proof.
  split; [|split; [|split; [|split; [|split; [|split]]]]].
  - intros repo working_dir revision_0 files. unfold __init__.
    apply fill_up_facts. reflexivity.
  - intros amount h. apply fill_up_facts.
  - intros i c h. apply _unfold_facts.
  - intros pos c h Hs.
    destruct (_fold_in_step pos c h Hs) as (h' & Hr & Hs' & _). eauto.
  - intros i h. apply toggle_fold_facts.
  - intros fuel st incl count h Hs.
    destruct (search screen_height fuel st incl count h) as [o|] eqn:Ho;
      [|exact I].
    apply (search_facts _ _ _ _ _ _ _ Ho). exact Hs.
  - intros line_number h. apply get_line_facts.
Qed.

Lemma entries_stay_in_step_witness :
  in_step sample.loaded /\
  in_step
    (state_of
       (toggle_fold sample.child_history sample.is_folded 1 sample.loaded)) /\
  exists h', _fold 2 sample.cC sample.unfolded = Return tt h' /\ in_step h'.
Proof.
  assert (H1 : in_step sample.loaded) by reflexivity.
  assert (H2 : in_step sample.unfolded) by reflexivity.
  destruct (entries_stay_in_step sample.child_history sample.is_folded 2
              (fun _ _ _ => [])) as (_ & _ & _ & Hfold & Htoggle & _).
  split; [exact H1|]. split; [exact (Htoggle 1%nat sample.loaded H1)|].
  exact (Hfold 2%nat sample.cC sample.unfolded H2).
Defined.

(** X4. The two running maxima never decrease, and they cover the
    sequence: when no record has an author name or a relative date longer
    than the maxima, none has after [fill_up], [_unfold], [_fold],
    [toggle_fold], [search] and [get_line]; and [__init__] builds an
    object in which this holds. *)
Theorem maxima_cover_rows
    (child_history : string -> Commit -> list Commit)
    (is_folded : list Commit -> nat -> bool) (screen_height : Z)
    (columns : LogEntry -> nat -> nat -> list Piece) :
  (forall repo working_dir revision_0 files,
     widths_cover
       (state_of (__init__ screen_height repo working_dir revision_0 files))) /\
  (forall amount h,
     let h' := state_of (fill_up amount h) in
     (date_max_len h <= date_max_len h')%nat /\
     (name_max_len h <= name_max_len h')%nat /\
     (widths_cover h -> widths_cover h')) /\
  (forall i c h,
     let h' := _unfold child_history i c h in
     (date_max_len h <= date_max_len h')%nat /\
     (name_max_len h <= name_max_len h')%nat /\
     (widths_cover h -> widths_cover h')) /\
  (forall pos c h,
     let h' := state_of (_fold pos c h) in
     date_max_len h' = date_max_len h /\
     name_max_len h' = name_max_len h /\
     (widths_cover h -> widths_cover h')) /\
  (forall i h,
     let h' := state_of (toggle_fold child_history is_folded i h) in
     (date_max_len h <= date_max_len h')%nat /\
     (name_max_len h <= name_max_len h')%nat /\
     (widths_cover h -> widths_cover h')) /\
  (forall fuel st incl count h,
     match search screen_height fuel st incl count h with
     | Some o =>
         (date_max_len h <= date_max_len (state_of o))%nat /\
         (name_max_len h <= name_max_len (state_of o))%nat /\
         (widths_cover h -> widths_cover (state_of o))
     | None => True
     end) /\
  (forall line_number h,
     let h' := state_of (get_line columns line_number h) in
     (date_max_len h <= date_max_len h')%nat /\
     (name_max_len h <= name_max_len h')%nat /\
     (widths_cover h -> widths_cover h')).
Proof.
  split; [|split; [|split; [|split; [|split; [|split]]]]].
  - intros repo working_dir revision_0 files. unfold __init__.
    apply fill_up_facts. constructor.
  - intros amount h.
    destruct (fill_up_facts amount h) as (_ & _ & _ & Hd & Hn & Hw & _).
    auto.
  - intros i c h.
    destruct (_unfold_facts child_history i c h) as (_ & Hw & Hd & Hn & _).
    auto.
  - intros pos c h.
    destruct (_fold_loop_keeps c pos
                (fun k =>
                   (String.length (author_rel_date k) <= date_max_len h)%nat /\
                   (String.length (author_name k) <= name_max_len h)%nat)
                (drop pos (commit_list h)) h) as (Hd & Hn & Hw).
    unfold _fold. simpl in *. split; [exact Hd|]. split; [exact Hn|].
    intros Hw0. unfold widths_cover. rewrite Hd, Hn. apply Hw. exact Hw0.
  - intros i h.
    destruct (toggle_fold_facts child_history is_folded i h)
      as (_ & Hw & Hd & Hn & _).
    auto.
  - intros fuel st incl count h.
    destruct (search screen_height fuel st incl count h) as [o|] eqn:Ho;
      [|exact I].
    destruct (search_facts _ _ _ _ _ _ _ Ho) as (_ & Hw & Hd & Hn). auto.
  - intros line_number h.
    destruct (get_line_facts columns line_number h)
      as (_ & Hw & Hd & Hn & _).
    auto.
Qed.

Lemma maxima_cover_rows_witness :
  widths_cover sample.loaded /\
  widths_cover
    (state_of
       (toggle_fold sample.child_history sample.is_folded 1 sample.loaded)).
Proof.
  assert (H1 : widths_cover sample.loaded)
    by (repeat constructor; vm_compute; lia).
  destruct (maxima_cover_rows sample.child_history sample.is_folded 2
              (fun _ _ _ => [])) as (_ & _ & _ & _ & Htoggle & _).
  split; [exact H1|].
  exact (proj2 (proj2 (Htoggle 1%nat sample.loaded)) H1).
Defined.

(** X5. [toggle_fold] works on the materialized rows only: it issues no
    fetch and leaves the cursor where it is. On a row that does not exist
    it raises [IndexError] and changes nothing; with the entries in step
    it returns for every row that exists. *)
Theorem toggle_fold_is_local
    (child_history : string -> Commit -> list Commit)
    (is_folded : list Commit -> nat -> bool) (i : nat) (h : History) :
  fetches (state_of (toggle_fold child_history is_folded i h)) = fetches h /\
  cursor_position (state_of (toggle_fold child_history is_folded i h)) =
    cursor_position h /\
  ((length (commit_list h) <= i)%nat ->
   toggle_fold child_history is_folded i h = Raise IndexError h) /\
  ((i < length (commit_list h))%nat -> in_step h ->
   exists h', toggle_fold child_history is_folded i h = Return tt h').
Proof.
  destruct (toggle_fold_facts child_history is_folded i h)
    as (_ & _ & _ & _ & Hf & Hp).
  split; [exact Hf|]. split; [exact Hp|]. split.
  - intros Hi. unfold toggle_fold.
    rewrite (proj2 (lookup_ge_None (commit_list h) i)) by lia. reflexivity.
  - intros Hi Hs. unfold toggle_fold.
    destruct (lookup_lt_is_Some_2 (commit_list h) i Hi) as [c ->].
    destruct (is_merge c); simpl; [|eauto].
    destruct (is_folded (commit_list h) i); [eauto|].
    destruct (_fold_in_step (i + 1) c h Hs) as (h' & Hr & _). eauto.
Qed.

Lemma toggle_fold_is_local_witness :
  (1 < length (commit_list sample.unfolded))%nat /\
  in_step sample.unfolded /\
  exists h',
    toggle_fold sample.child_history sample.is_folded 1 sample.unfolded =
    Return tt h'.
Proof.
  assert (H1 : (1 < length (commit_list sample.unfolded))%nat)
    by (vm_compute; lia).
  assert (H2 : in_step sample.unfolded) by reflexivity.
  split; [exact H1|]. split; [exact H2|].
  exact (proj2 (proj2 (proj2
           (toggle_fold_is_local sample.child_history sample.is_folded 1
              sample.unfolded))) H1 H2).
Defined.

(** X6. Folding and unfolding leave the pagination alone. At a row whose
    commit has a level that is not negative and whose side-branch records
    are all deeper than it, and with the entries in step, [toggle_fold]
    does not change the records of level 0, so the next [fill_up] skips
    as many commits as it would have before. *)
Theorem toggle_fold_keeps_top_level
    (child_history : string -> Commit -> list Commit)
    (is_folded : list Commit -> nat -> bool) (i : nat) (c : Commit)
    (h : History) :
  commit_list h !! i = Some c ->
  in_step h ->
  0 <= level c ->
  Forall (fun k => level c < level k) (child_history (working_dir h) c) ->
  top_level (commit_list (state_of (toggle_fold child_history is_folded i h)))
  = top_level (commit_list h).
Proof.
  intros Hi Hs Hlevel Hdeep. unfold toggle_fold. rewrite Hi.
  destruct (is_merge c); simpl; [|reflexivity].
  destruct (is_folded (commit_list h) i); simpl.
  - apply _unfold_facts. eapply Forall_impl; [exact Hdeep|].
    intros k Hk. simpl in Hk. lia.
  - destruct (_fold_in_step (i + 1) c h Hs) as (h' & -> & _ & Ht).
    simpl. apply Ht. exact Hlevel.
Qed.

Lemma toggle_fold_keeps_top_level_witness :
  commit_list sample.loaded !! 1%nat = Some sample.cC /\
  in_step sample.loaded /\
  0 <= level sample.cC /\
  Forall (fun k => level sample.cC < level k)
    (sample.child_history (working_dir sample.loaded) sample.cC) /\
  top_level
    (commit_list
       (state_of
          (toggle_fold sample.child_history sample.is_folded 1
             sample.loaded))) =
  top_level (commit_list sample.loaded).
Proof.
  assert (H1 : commit_list sample.loaded !! 1%nat = Some sample.cC)
    by reflexivity.
  assert (H2 : in_step sample.loaded) by reflexivity.
  assert (H3 : 0 <= level sample.cC) by (vm_compute; discriminate).
  assert (H4 : Forall (fun k => level sample.cC < level k)
                 (sample.child_history (working_dir sample.loaded) sample.cC))
    by (repeat constructor).
  repeat (split; [assumption|]).
  exact (toggle_fold_keeps_top_level sample.child_history sample.is_folded 1
           sample.cC sample.loaded H1 H2 H3 H4).
Defined.

(** ** [get_line] *)

(** X7. [get_line] fetches only on a miss, and then once: for a row
    before the end of the sequence it issues no fetch and leaves the
    sequence as it is; for a row at or after the end it issues one
    [iter_commits] call, for as many commits as are missing up to that
    row. It never trips the guard of [fill_up]: the only exception it can
    raise is the [IndexError] of a row that has a record and no entry. *)
Theorem get_line_fetches_on_miss
    (columns : LogEntry -> nat -> nat -> list Piece) (line_number : Z)
    (h : History) :
  (line_number < Z.of_nat (length (commit_list h)) ->
   fetches (state_of (get_line columns line_number h)) = fetches h /\
   commit_list (state_of (get_line columns line_number h)) = commit_list h) /\
  (Z.of_nat (length (commit_list h)) <= line_number ->
   fetches (state_of (get_line columns line_number h)) =
     mkFetch (revision_0 h) (length (top_level (commit_list h)))
       (line_number - Z.of_nat (length (commit_list h)) + 1) (files h)
     :: fetches h) /\
  (forall e h',
     get_line columns line_number h = Raise e h' ->
     e = IndexError /\
     (exists c, getitem (commit_list h') line_number = Some c) /\
     getitem (log_entry_list h') line_number = None).
Proof.
  assert (Hrender : forall h1 : History,
             let o :=
               match getitem (commit_list h1) line_number with
               | Some commit => _render_commit columns commit line_number h1
               | None => Return [(EmptyString, EmptyString)] h1
               end in
             fetches (state_of o) = fetches h1 /\
             commit_list (state_of o) = commit_list h1 /\
             (forall e h', o = Raise e h' ->
                e = IndexError /\
                (exists c, getitem (commit_list h') line_number = Some c) /\
                getitem (log_entry_list h') line_number = None)).
  { intros h1.
    destruct (getitem (commit_list h1) line_number) as [commit|] eqn:Hget;
      simpl; [|repeat split; discriminate].
    destruct (_render_commit_facts columns commit line_number h1)
      as (Rc & Rf & _).
    split; [exact Rf|]. split; [exact Rc|].
    unfold _render_commit.
    destruct (getitem (log_entry_list h1) line_number) eqn:Hentry;
      [discriminate|].
    intros e h' [= <- <-]. eauto. }
  unfold get_line.
  destruct (Z.ltb_spec (Z.of_nat (length (commit_list h)) - 1) line_number)
    as [Hmiss|Hhit].
  - destruct (fill_up_positive
                (line_number - Z.of_nat (length (commit_list h)) + 1) h
                ltac:(lia)) as (h1 & -> & Hf & _).
    destruct (Hrender h1) as (Rf & Rc & Rraise).
    split; [lia|]. split; [intros _; rewrite Rf; exact Hf|]. exact Rraise.
  - destruct (Hrender h) as (Rf & Rc & Rraise).
    split; [auto|]. split; [lia|]. exact Rraise.
Qed.

Lemma get_line_fetches_on_miss_witness :
  (3 < Z.of_nat (length (commit_list sample.loaded)) /\
   fetches (state_of (get_line (fun _ _ _ => []) 3 sample.loaded)) =
     fetches sample.loaded) /\
  (Z.of_nat (length (commit_list sample.two_rows)) <= 3 /\
   fetches (state_of (get_line (fun _ _ _ => []) 3 sample.two_rows)) =
     mkFetch "HEAD" 2 2 [] :: fetches sample.two_rows).
Proof.
  assert (H1 : 3 < Z.of_nat (length (commit_list sample.loaded)))
    by (vm_compute; reflexivity).
  assert (H2 : Z.of_nat (length (commit_list sample.two_rows)) <= 3)
    by (vm_compute; discriminate).
  split; (split; [assumption|]).
  - exact (proj1 (proj1 (get_line_fetches_on_miss (fun _ _ _ => []) 3
                           sample.loaded) H1)).
  - exact (proj1 (proj2 (get_line_fetches_on_miss (fun _ _ _ => []) 3
                           sample.two_rows)) H2).
Defined.

Lemma in_step_entry (h : History) (line_number : Z) (c : Commit) :
  in_step h -> getitem (commit_list h) line_number = Some c ->
  exists entry,
    getitem (log_entry_list h) line_number = Some entry /\
    entry_commit entry = c.
Proof.
  unfold in_step. intros <-. rewrite getitem_map.
  destruct (getitem (log_entry_list h) line_number) as [entry|];
    [|discriminate].
  intros [= <-]. eauto.
Qed.

(** X8. With the entries in step [get_line] never raises. It returns the
    blank row [[("", "")]] when the row is still missing after the fetch,
    that is, past the end of the history; otherwise it renders the row,
    and the entry of that row then carries the row's commit and the
    current search state. *)
Theorem get_line_in_step
    (columns : LogEntry -> nat -> nat -> list Piece) (line_number : Z)
    (h : History) :
  in_step h ->
  exists frags h',
    get_line columns line_number h = Return frags h' /\
    (getitem (commit_list h') line_number = None ->
     frags = [(EmptyString, EmptyString)]) /\
    (forall c, getitem (commit_list h') line_number = Some c ->
       exists entry,
         getitem (log_entry_list h') line_number = Some entry /\
         entry_commit entry = c /\
         entry_search_state entry = search_state h).
Proof.
  intros Hs.
  assert (Hrender : forall h1 : History,
             in_step h1 -> search_state h1 = search_state h ->
             exists frags h',
               match getitem (commit_list h1) line_number with
               | Some commit => _render_commit columns commit line_number h1
               | None => Return [(EmptyString, EmptyString)] h1
               end = Return frags h' /\
               (getitem (commit_list h') line_number = None ->
                frags = [(EmptyString, EmptyString)]) /\
               (forall c, getitem (commit_list h') line_number = Some c ->
                  exists entry,
                    getitem (log_entry_list h') line_number = Some entry /\
                    entry_commit entry = c /\
                    entry_search_state entry = search_state h)).
  { intros h1 Hs1 Hss.
    destruct (getitem (commit_list h1) line_number) as [commit|] eqn:Hget.
    - destruct (in_step_entry h1 line_number commit Hs1 Hget)
        as (entry & Hentry & Hcommit).
      unfold _render_commit. rewrite Hentry.
      eexists. eexists. split; [reflexivity|]. simpl. split.
      + rewrite Hget. discriminate.
      + intros c Hc. rewrite Hget in Hc. injection Hc as <-.
        eexists. split; [apply (getitem_setitem _ _ _ entry); exact Hentry|].
        simpl. auto.
    - eexists. eexists. split; [reflexivity|]. split; [reflexivity|].
      intros c Hc. rewrite Hget in Hc. discriminate. }
  unfold get_line.
  destruct (Z.ltb_spec (Z.of_nat (length (commit_list h)) - 1) line_number)
    as [Hmiss|Hhit].
  - pose proof (fill_up_facts
                  (line_number - Z.of_nat (length (commit_list h)) + 1) h)
      as (_ & _ & _ & _ & _ & _ & Hs1).
    pose proof (fill_up_search_state
                  (line_number - Z.of_nat (length (commit_list h)) + 1) h)
      as Hss.
    destruct (fill_up_positive
                (line_number - Z.of_nat (length (commit_list h)) + 1) h
                ltac:(lia)) as (h1 & Hr & _).
    rewrite Hr in *. simpl in *. apply Hrender; auto.
  - apply Hrender; auto.
Qed.

Lemma get_line_in_step_witness :
  in_step sample.two_rows /\
  exists frags h',
    get_line (fun _ _ _ => []) 9 sample.two_rows = Return frags h' /\
    (getitem (commit_list h') 9 = None ->
     frags = [(EmptyString, EmptyString)]).
Proof.
  assert (H1 : in_step sample.two_rows) by reflexivity.
  split; [exact H1|].
  destruct (get_line_in_step (fun _ _ _ => []) 9 sample.two_rows H1)
    as (frags & h' & Hr & Hblank & _).
  exists frags, h'. auto.
Defined.

(** ** [_render_commit] *)

Lemma texts_of_reversed (l : list Fragment) :
  map snd (map (fun x : Fragment => (fst x, snd x)) (map reversed l)) =
  map snd l.
Proof.
  rewrite !map_map. apply map_ext. intros [style text]. reflexivity.
Qed.

Lemma texts_of_plain (l : list Fragment) :
  map snd (map (fun x : Fragment => (fst x, snd x)) l) = map snd l.
Proof.
  rewrite map_map. apply map_ext. intros [style text]. reflexivity.
Qed.

(** X9. The highlight of the cursor row changes styles only. Rendering a
    row gives the same texts wherever the cursor is; on the cursor row
    every style starts with [reverse ], and when the cursor is on another
    row, here and there, the fragments are the same. A row without an
    entry is an [IndexError] in both. *)
Theorem highlight_keeps_text
    (columns : LogEntry -> nat -> nat -> list Piece) (commit : Commit)
    (line_number : Z) (h : History) (p : Point) :
  match _render_commit columns commit line_number h,
        _render_commit columns commit line_number (set_cursor_position p h)
  with
  | Return f1 _, Return f2 _ =>
      map snd f1 = map snd f2 /\
      (line_number = y (cursor_position h) ->
       Forall (fun f => exists style, fst f = ("reverse " ++ style)%string) f1) /\
      (line_number <> y (cursor_position h) -> line_number <> y p -> f1 = f2)
  | Raise e1 _, Raise e2 _ => e1 = IndexError /\ e2 = IndexError
  | _, _ => False
  end.
Proof.
  unfold _render_commit. simpl.
  destruct (getitem (log_entry_list h) line_number) as [entry|];
    [|auto].
  set (l := fold_left add_piece _ []).
  split; [|split].
  - destruct (line_number =? y (cursor_position h)),
             (line_number =? y p);
      rewrite ?texts_of_reversed, ?texts_of_plain; reflexivity.
  - intros ->. rewrite Z.eqb_refl.
    apply Forall_forall. intros f Hf.
    apply list_elem_of_In, in_map_iff in Hf as ([s0 t0] & <- & Hf).
    apply in_map_iff in Hf as ([s1 t1] & [= <- <-] & _).
    simpl. eauto.
  - intros H1 H2.
    destruct (Z.eqb_spec line_number (y (cursor_position h)));
      [contradiction|].
    destruct (Z.eqb_spec line_number (y p)); [contradiction|]. reflexivity.
Qed.

Example sample_cursor_row :
  match get_line sample.columns 0 sample.two_rows with
  | Return frags _ => frags
  | Raise _ _ => []
  end =
  [("reverse ansiyellow", "f3a9c21"); ("reverse ", " ");
   ("reverse bold", "Add the viewer"); ("reverse ", "ann");
   ("reverse ", " ")]%string.
Proof. reflexivity. Qed.

Example sample_other_row :
  match get_line sample.columns 1 sample.two_rows with
  | Return frags _ => frags
  | Raise _ _ => []
  end =
  [("ansiyellow", "c71e0b4"); ("", " "); ("bold", "Merge the side work");
   ("", "bob"); ("", " ")]%string.
Proof. reflexivity. Qed.

Lemma highlight_keeps_text_witness :
  match _render_commit sample.columns sample.cF 0 sample.loaded,
        _render_commit sample.columns sample.cF 0
          (set_cursor_position (mkPoint 0 3) sample.loaded)
  with
  | Return f1 _, Return f2 _ =>
      map snd f1 = map snd f2 /\
      (0 = y (cursor_position sample.loaded) ->
       Forall (fun f => exists style, fst f = ("reverse " ++ style)%string) f1) /\
      (0 <> y (cursor_position sample.loaded) -> 0 <> y (mkPoint 0 3) ->
       f1 = f2)
  | Raise e1 _, Raise e2 _ => e1 = IndexError /\ e2 = IndexError
  | _, _ => False
  end.
Proof.
  exact (highlight_keeps_text sample.columns sample.cF 0 sample.loaded
           (mkPoint 0 3)).
Defined.

(** ** Pagination *)

Lemma window_add (A : Type) (l : list A) (a b : nat) :
  take a l ++ take b (drop (length (take a l)) l) = take (a + b) l.
Proof.
  rewrite length_take.
  destruct (Nat.le_ge_cases a (length l)) as [Hle|Hge].
  - rewrite Nat.min_l by assumption. apply take_take_drop.
  - rewrite Nat.min_r by assumption.
    rewrite drop_all, take_nil, app_nil_r, !take_ge by lia. reflexivity.
Qed.

(** X10. Pagination adds up. When the walker serves the windows of a log
    of top-level commits, fetching [a] commits and then [b] more leaves
    the same sequence as fetching [a + b] at once: the skip count of the
    second call is moved on by exactly what the first one appended. *)
Theorem fill_up_twice (a b : Z) (h : History) (log : list Commit) :
  0 < a -> 0 < b ->
  first_parent_log (_repo h) (revision_0 h) (files h) log ->
  Forall (fun c => level c = 0) log ->
  commit_list (state_of (fill_up b (state_of (fill_up a h)))) =
  commit_list (state_of (fill_up (a + b) h)).
Proof.
  intros Ha Hb Hlog Hzero.
  destruct (fill_up_positive (a + b) h ltac:(lia)) as (h3 & -> & _ & Hc3 & _).
  pose proof (fill_up_facts a h) as (Hrepo & Hrev & Hfiles & _).
  destruct (fill_up_positive a h Ha) as (h1 & Hr1 & _ & Hc1 & _).
  rewrite Hr1 in *. cbn [state_of] in *.
  destruct (fill_up_positive b h1 Hb) as (h2 & -> & _ & Hc2 & _).
  simpl. rewrite Hc3, Hc2, Hc1, Hrepo, Hrev, Hfiles.
  rewrite !Hlog by lia. rewrite <- app_assoc. f_equal.
  set (skip := length (top_level (commit_list h))).
  set (f1 := take (Z.to_nat a) (drop skip log)).
  assert (Hskip : length (top_level (commit_list h ++ f1)) =
                  (skip + length f1)%nat).
  { unfold top_level at 1. rewrite List.filter_app, length_app.
    fold (top_level (commit_list h)). fold (top_level f1).
    rewrite (top_level_all f1); [reflexivity|].
    unfold f1. apply Forall_take, Forall_drop. exact Hzero. }
  rewrite Hskip, <- drop_drop, Z2Nat.inj_add by lia.
  apply window_add.
Qed.

Lemma fill_up_twice_witness :
  0 < 1 /\ 0 < 2 /\
  first_parent_log (_repo sample.empty) (revision_0 sample.empty)
    (files sample.empty) sample.log /\
  Forall (fun c => level c = 0) sample.log /\
  commit_list (state_of (fill_up 2 (state_of (fill_up 1 sample.empty)))) =
  commit_list (state_of (fill_up (1 + 2) sample.empty)).
Proof.
  assert (H3 : first_parent_log (_repo sample.empty) (revision_0 sample.empty)
                 (files sample.empty) sample.log)
    by (apply sample_first_parent_log; reflexivity).
  split; [lia|]. split; [lia|]. split; [exact H3|].
  split; [exact sample_log_top_level|].
  exact (fill_up_twice 1 2 sample.empty sample.log ltac:(lia) ltac:(lia) H3
           sample_log_top_level).
Defined.

(** X11. A new [History] holds the first screenful and nothing else: with
    a positive screen height and a walker that serves the windows of the
    log, [__init__] returns with the first [screen_height] commits of the
    log as its sequence, after a single fetch that skips nothing, with the
    cursor on row 0 and [line_count] as the repository counted it. With a
    screen height that is not positive it raises [ValueError]. *)
Theorem init_first_screen (screen_height : Z) (repo : Repo)
    (working_dir revision_0 : string) (files : list string)
    (log : list Commit) :
  first_parent_log repo revision_0 files log ->
  (0 < screen_height ->
   exists fetched h',
     __init__ screen_height repo working_dir revision_0 files =
       Return fetched h' /\
     commit_list h' = take (Z.to_nat screen_height) log /\
     fetches h' = [mkFetch revision_0 0 screen_height files] /\
     cursor_position h' = mkPoint 0 0 /\
     line_count h' = count_commits repo revision_0) /\
  (screen_height <= 0 ->
   exists h',
     __init__ screen_height repo working_dir revision_0 files =
       Raise ValueError h' /\
     commit_list h' = []).
Proof.
  intros Hlog. unfold __init__. split.
  - intros Hsh.
    match goal with
    | |- context [fill_up screen_height ?h0] =>
        destruct (fill_up_positive screen_height h0 Hsh)
          as (h' & Hr & Hf & Hc & _ & Hn & Hp)
    end.
    simpl in *. rewrite (Hlog 0%nat screen_height Hsh) in Hc.
    eexists. exists h'. split; [exact Hr|]. auto.
  - intros Hsh. rewrite fill_up_guard by assumption. eauto.
Qed.

Lemma init_first_screen_witness :
  first_parent_log sample.repo "HEAD" [] sample.log /\
  0 < 2 /\
  exists fetched h',
    __init__ 2 sample.repo "/repo" "HEAD" [] = Return fetched h' /\
    commit_list h' = take (Z.to_nat 2) sample.log.
Proof.
  assert (H1 : first_parent_log sample.repo "HEAD" [] sample.log)
    by (intros skip max_count _; reflexivity).
  split; [exact H1|]. split; [lia|].
  destruct (proj1 (init_first_screen 2 sample.repo "/repo" "HEAD" []
                     sample.log H1) ltac:(lia))
    as (fetched & h' & Hr & Hc & _).
  exists fetched, h'. auto.
Defined.

(** ** [HistoryControl]: the cursor *)

Lemma goto_line_facts (line_number : Z) (h : History) :
  commit_list (goto_line line_number h) = commit_list h /\
  log_entry_list (goto_line line_number h) = log_entry_list h /\
  line_count (goto_line line_number h) = line_count h /\
  x (cursor_position (goto_line line_number h)) = x (cursor_position h) /\
  y (cursor_position (goto_line line_number h)) =
    (if line_number <? 0 then
       if line_count h + 1 - line_number <? 0 then 0
       else line_count h + 1 - line_number
     else if line_count h <=? line_number then line_count h - 1
     else line_number).
Proof.
  unfold goto_line, current_line.
  match goal with
  | |- context [y (cursor_position h) =? ?t] =>
      destruct (Z.eqb_spec (y (cursor_position h)) t) as [Heq|Hne]
  end; simpl; auto.
Qed.

(** X12. The cursor moves of the control keep the cursor on a row: when
    it is on a row between 0 and [line_count - 1], it still is after
    [move_cursor_down], [move_cursor_up], [goto_last] and [goto_line] to
    any row that is not negative; going to a row that exists lands on it
    and going past the last row lands on the last row. None of them
    touches the column or the sequence. *)
Theorem cursor_stays_on_a_row (h : History) :
  0 <= y (cursor_position h) < line_count h ->
  let on_a_row (h' : History) :=
    0 <= y (cursor_position h') < line_count h' /\
    x (cursor_position h') = x (cursor_position h) /\
    commit_list h' = commit_list h in
  on_a_row (move_cursor_down h) /\
  on_a_row (move_cursor_up h) /\
  on_a_row (goto_last h) /\
  (forall n, 0 <= n ->
     on_a_row (goto_line n h) /\
     (n < line_count h -> y (cursor_position (goto_line n h)) = n) /\
     (line_count h <= n ->
      y (cursor_position (goto_line n h)) = line_count h - 1)).
Proof.
  intros Hy on_a_row. unfold on_a_row.
  split; [|split; [|split]].
  - unfold move_cursor_down.
    destruct (Z.ltb_spec (y (cursor_position h) + 1) (line_count h));
      simpl; repeat split; auto; lia.
  - unfold move_cursor_up.
    destruct (Z.ltb_spec 0 (y (cursor_position h)));
      simpl; repeat split; auto; lia.
  - unfold goto_last.
    destruct (Z.ltb_spec (y (cursor_position h)) (line_count h));
      simpl; repeat split; auto; lia.
  - intros n Hn.
    destruct (goto_line_facts n h) as (Hc & _ & Hl & Hx & Hyn).
    rewrite Hc, Hl, Hx, Hyn.
    destruct (Z.ltb_spec n 0); [lia|].
    destruct (Z.leb_spec (line_count h) n); repeat split; auto; lia.
Qed.

Lemma cursor_stays_on_a_row_witness :
  0 <= y (cursor_position (sample.at_row 3 sample.loaded))
    < line_count (sample.at_row 3 sample.loaded) /\
  y (cursor_position (goto_line 40 (sample.at_row 3 sample.loaded))) = 5 /\
  0 <= y (cursor_position (move_cursor_down (sample.at_row 3 sample.loaded)))
    < line_count (move_cursor_down (sample.at_row 3 sample.loaded)).
Proof.
  assert (H1 : 0 <= y (cursor_position (sample.at_row 3 sample.loaded))
               < line_count (sample.at_row 3 sample.loaded))
    by (vm_compute; split; [discriminate|reflexivity]).
  destruct (cursor_stays_on_a_row (sample.at_row 3 sample.loaded) H1)
    as (Hdown & _ & _ & Hgoto).
  split; [exact H1|]. split.
  - exact (proj2 (proj2 (Hgoto 40 ltac:(lia)))
             ltac:(vm_compute; discriminate)).
  - exact (proj1 Hdown).
Defined.

(** X13. Moving the cursor one row down and back up, or one row up and
    back down, gives back the object as it was, whenever the first move
    has room: the next row is below [line_count], or the cursor is above
    row 0. *)
Theorem cursor_down_up_round_trip (h : History) :
  (0 <= y (cursor_position h) ->
   y (cursor_position h) + 1 < line_count h ->
   move_cursor_up (move_cursor_down h) = h) /\
  (0 < y (cursor_position h) ->
   y (cursor_position h) < line_count h ->
   move_cursor_down (move_cursor_up h) = h).
Proof.
  destruct h as [wd rev fs dm nm repo lc cl ll ss [px py] fe].
  unfold move_cursor_up, move_cursor_down. simpl. split; intros H1 H2.
  - destruct (Z.ltb_spec (py + 1) lc); [|lia]. simpl.
    destruct (Z.ltb_spec 0 (py + 1)); [|lia].
    unfold set_cursor_position. simpl.
    replace (py + 1 - 1) with py by lia. reflexivity.
  - destruct (Z.ltb_spec 0 py); [|lia]. simpl.
    destruct (Z.ltb_spec (py - 1 + 1) lc); [|lia].
    unfold set_cursor_position. simpl.
    replace (py - 1 + 1) with py by lia. reflexivity.
Qed.

Lemma cursor_down_up_round_trip_witness :
  0 <= y (cursor_position (sample.at_row 2 sample.loaded)) /\
  y (cursor_position (sample.at_row 2 sample.loaded)) + 1
    < line_count (sample.at_row 2 sample.loaded) /\
  move_cursor_up (move_cursor_down (sample.at_row 2 sample.loaded)) =
  sample.at_row 2 sample.loaded.
Proof.
  assert (H1 : 0 <= y (cursor_position (sample.at_row 2 sample.loaded)))
    by (vm_compute; discriminate).
  assert (H2 : y (cursor_position (sample.at_row 2 sample.loaded)) + 1
               < line_count (sample.at_row 2 sample.loaded))
    by (vm_compute; reflexivity).
  split; [exact H1|]. split; [exact H2|].
  exact (proj1 (cursor_down_up_round_trip (sample.at_row 2 sample.loaded))
           H1 H2).
Defined.

(** X14. [goto_line] with a negative row does not count from the end: it
    puts the cursor on row [line_count + 1 - line_number], which lies
    beyond the last row whenever [line_count] is not negative. *)
Theorem goto_line_negative (line_number : Z) (h : History) :
  line_number < 0 -> 0 <= line_count h ->
  y (cursor_position (goto_line line_number h)) =
    line_count h + 1 - line_number /\
  line_count h - 1 < y (cursor_position (goto_line line_number h)).
Proof.
  intros Hn Hl. destruct (goto_line_facts line_number h) as (_ & _ & _ & _ & ->).
  destruct (Z.ltb_spec line_number 0); [|lia].
  destruct (Z.ltb_spec (line_count h + 1 - line_number) 0); lia.
Qed.

Lemma goto_line_negative_witness :
  -1 < 0 /\ 0 <= line_count sample.loaded /\
  y (cursor_position (goto_line (-1) sample.loaded)) = 8.
Proof.
  split; [lia|]. split; [vm_compute; discriminate|].
  exact (proj1 (goto_line_negative (-1) sample.loaded ltac:(lia)
                  ltac:(vm_compute; discriminate))).
Defined.

(** ** [go_to_parent] and [go_to_link] *)

(** The loop of [go_to_parent] over rows that all exist: it ends without
    an exception, on the nearest row at or before [i] that is shallower
    than [c], or with none when every such row is at least as deep. *)
Lemma parent_loop_scan (cl : list Commit) (c : Commit) (fuel : nat) :
  forall i : Z,
    (Z.to_nat (i + 1) < fuel)%nat -> i < Z.of_nat (length cl) ->
    exists r,
      parent_loop fuel cl c i = Some (inr r) /\
      match r with
      | Some i' =>
          0 <= i' <= i /\
          (exists p, getitem cl i' = Some p /\ level p < level c) /\
          (forall j, i' < j <= i ->
             exists q, getitem cl j = Some q /\ level c <= level q)
      | None =>
          forall j, 0 <= j <= i ->
            exists q, getitem cl j = Some q /\ level c <= level q
      end.
Proof.
  induction fuel as [|fuel IH]; intros i Hfuel Hi; [lia|].
  simpl. destruct (Z.leb_spec 0 i) as [Hpos|Hneg].
  - destruct (getitem cl i) as [candidat|] eqn:Hget.
    + destruct (Z.ltb_spec (level candidat) (level c)) as [Hlt|Hge].
      * exists (Some i). split; [reflexivity|]. split; [lia|].
        split; [exists candidat; auto|]. intros j Hj. lia.
      * destruct (IH (i - 1)) as (r & Hr & Hspec); [lia|lia|].
        exists r. split; [exact Hr|].
        destruct r as [i'|].
        -- destruct Hspec as (Hrange & Hhit & Hskip).
           split; [lia|]. split; [exact Hhit|]. intros j Hj.
           destruct (Z.eq_dec j i) as [->|Hne]; [exists candidat; auto|].
           apply Hskip. lia.
        -- intros j Hj.
           destruct (Z.eq_dec j i) as [->|Hne]; [exists candidat; auto|].
           apply Hspec. lia.
    + apply getitem_None_ge in Hget; lia.
  - exists None. split; [reflexivity|]. intros j Hj. lia.
Qed.

(** X15. [go_to_parent] from a row that exists never raises. It leaves
    the object alone when the row's commit has no positive level, when
    the row is row 0, or when no earlier row is shallower; otherwise it
    goes to the nearest earlier row whose level is smaller than the
    commit's, every row in between being at least as deep, and the cursor
    lands on that row when it lies below [line_count]. *)
Theorem go_to_parent_nearest (fuel : nat) (line_number : Z) (h : History)
    (c : Commit) :
  0 <= line_number ->
  getitem (commit_list h) line_number = Some c ->
  (Z.to_nat line_number < fuel)%nat ->
  exists h',
    go_to_parent fuel line_number h = Some (Return tt h') /\
    ((h' = h /\
      (level c <= 0 \/
       forall j, 0 <= j < line_number ->
         exists q, getitem (commit_list h) j = Some q /\ level c <= level q))
     \/
     (0 < level c /\
      exists i,
        nearest_shallower (commit_list h) c line_number i /\
        h' = goto_line i h /\
        (i < line_count h -> y (cursor_position h') = i))).
Proof.
  intros Hn Hget Hfuel. unfold go_to_parent. rewrite Hget.
  destruct (Z.ltb_spec 0 (level c)) as [Hlevel|Hlevel]; simpl;
    [|exists h; split; [reflexivity|]; left; split; [reflexivity|];
      left; lia].
  destruct (Z.ltb_spec 0 line_number) as [Hrow|Hrow]; simpl;
    [|exists h; split; [reflexivity|]; left; split; [reflexivity|];
      right; intros j Hj; lia].
  apply getitem_Some_lt in Hget; [|lia].
  destruct (parent_loop_scan (commit_list h) c fuel (line_number - 1))
    as (r & -> & Hspec); [lia|lia|].
  destruct r as [i|].
  - exists (goto_line i h). split; [reflexivity|]. right.
    split; [exact Hlevel|]. exists i.
    destruct Hspec as (Hrange & Hhit & Hskip).
    split; [|split; [reflexivity|]].
    + split; [lia|]. split; [exact Hhit|]. intros j Hj. apply Hskip. lia.
    + intros Hi. destruct (goto_line_facts i h) as (_ & _ & _ & _ & ->).
      destruct (Z.ltb_spec i 0); [lia|].
      destruct (Z.leb_spec (line_count h) i); [lia|reflexivity].
  - exists h. split; [reflexivity|]. left. split; [reflexivity|]. right.
    intros j Hj. apply Hspec. lia.
Qed.

Lemma go_to_parent_nearest_witness :
  0 <= 3 /\
  getitem (commit_list sample.unfolded) 3 = Some sample.cD /\
  (Z.to_nat 3 < 4)%nat /\
  exists h',
    go_to_parent 4 3 sample.unfolded = Some (Return tt h') /\
    y (cursor_position h') = 1.
Proof.
  assert (H2 : getitem (commit_list sample.unfolded) 3 = Some sample.cD)
    by reflexivity.
  split; [lia|]. split; [exact H2|]. split; [vm_compute; lia|].
  destruct (go_to_parent_nearest 4 3 sample.unfolded sample.cD ltac:(lia) H2
              ltac:(vm_compute; lia)) as (h' & Hr & _).
  exists h'. split; [exact Hr|].
  vm_compute in Hr. injection Hr as <-. reflexivity.
Defined.

Lemma sync_loop_facts (commits : list Commit) :
  forall h : History,
    let h' := fold_left sync_step commits h in
    commit_list h' = commit_list h /\
    log_entry_list h' =
      log_entry_list h ++
      map (fun c => mkLogEntry c (working_dir h) (search_state h)) commits.
Proof.
  induction commits as [|c commits IH]; intros h; cbn [fold_left map].
  - simpl. rewrite app_nil_r. auto.
  - destruct (IH (sync_step h c)) as [Hc Hl]. simpl in *.
    rewrite Hc, Hl, <- app_assoc. auto.
Qed.

(** X16. [go_to_link] brings the entries back in step. When [follow]
    returns a row at or past the end of the entries, and the entries
    present are those of the first rows of the list [follow] leaves
    behind, then after [go_to_link] every row of that list has the entry
    of its commit. When it returns a row that already has an entry, the
    entries are left as they were. *)
Theorem go_to_link_syncs
    (follow : string -> list Commit -> Z -> list Commit * option Z)
    (line_number : Z) (h : History) (cl : list Commit) (result : Z) :
  follow (working_dir h) (commit_list h) line_number = (cl, Some result) ->
  commit_list (go_to_link follow line_number h) = cl /\
  (Z.of_nat (length (log_entry_list h)) <= result ->
   map entry_commit (log_entry_list h) =
     take (length (log_entry_list h)) cl ->
   in_step (go_to_link follow line_number h)) /\
  (result < Z.of_nat (length (log_entry_list h)) ->
   log_entry_list (go_to_link follow line_number h) = log_entry_list h).
Proof.
  intros Hfollow. unfold go_to_link. rewrite Hfollow. simpl.
  destruct (Z.leb_spec (Z.of_nat (length (log_entry_list h))) result)
    as [Hpast|Hin].
  - match goal with
    | |- context [fold_left sync_step ?cs ?h0] =>
        destruct (sync_loop_facts cs h0) as [Hc Hl];
        destruct (goto_line_facts result (fold_left sync_step cs h0))
          as (Gc & Gl & _)
    end.
    simpl in *. rewrite Gc, Hc. split; [reflexivity|]. split; [|lia].
    intros _ Hprefix. unfold in_step. rewrite Gl, Gc, Hl, Hc, map_app, map_map.
    simpl. rewrite map_id, Hprefix. apply take_drop.
  - destruct (goto_line_facts result (set_commit_list cl h)) as (Gc & Gl & _).
    simpl in *. rewrite Gc, Gl. split; [reflexivity|]. split; [lia|auto].
Qed.

Lemma go_to_link_syncs_witness :
  sample.follow (working_dir sample.two_rows) (commit_list sample.two_rows) 1
    = (sample.log, Some 3) /\
  Z.of_nat (length (log_entry_list sample.two_rows)) <= 3 /\
  map entry_commit (log_entry_list sample.two_rows) =
    take (length (log_entry_list sample.two_rows)) sample.log /\
  in_step (go_to_link sample.follow 1 sample.two_rows).
Proof.
  assert (H1 : sample.follow (working_dir sample.two_rows)
                 (commit_list sample.two_rows) 1 = (sample.log, Some 3))
    by reflexivity.
  assert (H2 : Z.of_nat (length (log_entry_list sample.two_rows)) <= 3)
    by (vm_compute; discriminate).
  assert (H3 : map entry_commit (log_entry_list sample.two_rows) =
               take (length (log_entry_list sample.two_rows)) sample.log)
    by reflexivity.
  repeat (split; [assumption|]).
  exact (proj1 (proj2 (go_to_link_syncs sample.follow 1 sample.two_rows
                         sample.log 3 H1)) H2 H3).
Defined.

End history_more_facts.

(* ===================================================================== *)
(** * Further properties of [pygit_viewer/line.py] *)
(* ===================================================================== *)

Module line_more_facts.
Import line line_facts.

(** ** [Repo.walker] *)




(** ** [Foldable.children] *)

Lemma wrap_each_wraps (fuel : nat) (repo : Repo) (parent : option Commit)
    (gits : list GitCommit) :
  forall cs : list Commit,
    wrap_each fuel repo gits parent = Some cs ->
    map _commit cs = gits /\
    Forall (fun c => _parent c = parent /\ level c = context_level parent) cs.
Proof.
  induction gits as [|g gits IH]; intros cs; simpl.
  - intros [= <-]. simpl. auto.
  - destruct (to_commit fuel repo g parent) as [c|] eqn:Hc; [|discriminate].
    destruct (wrap_each fuel repo gits parent) as [rest|] eqn:Hrest;
      [|discriminate].
    intros [= <-]. apply to_commit_stores in Hc as (Hg & Hp & Hl).
    destruct (IH rest eq_refl) as [Hm HF]. simpl. rewrite Hg, Hm. auto.
Qed.

Lemma wrap_each_returns (fuel : nat) (repo : Repo) (parent : option Commit)
    (gits : list GitCommit) :
  (forall g p, In g gits -> exists c, to_commit fuel repo g p = Some c) ->
  exists cs, wrap_each fuel repo gits parent = Some cs.
Proof.
  induction gits as [|g gits IH]; intros Hret; simpl; [eauto|].
  destruct (Hret g parent) as [c ->]; [now left|].
  destruct (IH (fun g' p H => Hret g' p (or_intror H))) as [rest ->].
  eauto.
Qed.

(** X18. [children] wraps every parent but the first, in order, with the
    commit itself as parent context: with a well-founded history and
    enough fuel it yields one record less than there are parents, each
    pointing back at the commit and levelled from it, which for a
    [Foldable] is one level deeper. For a commit whose parents do not
    resolve it raises. *)
Theorem children_skip_first_parent (repo : Repo) (self : Commit) :
  well_founded (merge_base_step repo) ->
  match git_parents (_commit self) with
  | Some ps =>
      exists n : nat, forall fuel : nat, (n <= fuel)%nat ->
        exists cs,
          children fuel repo self = Ok cs /\
          map _commit cs = drop 1 ps /\
          length cs = (length ps - 1)%nat /\
          Forall (fun c =>
                    _parent c = Some self /\
                    level c =
                      if isinstance_Foldable self then level self + 1
                      else level self) cs
  | None => forall fuel : nat, children fuel repo self = Raise KeyError
  end.
Proof.
  intros Hwf. unfold children.
  destruct (git_parents (_commit self)) as [ps|]; [|reflexivity].
  destruct (to_commit_returns_all repo (drop 1 ps) Hwf) as [n Hn].
  exists n. intros fuel Hf.
  destruct (wrap_each_returns fuel repo (Some self) (drop 1 ps)
              (fun g p H => Hn fuel g p Hf H)) as [cs Hcs].
  rewrite Hcs. apply wrap_each_wraps in Hcs as [Hm HF].
  exists cs. split; [reflexivity|]. split; [exact Hm|]. split.
  - rewrite <- (length_map _commit), Hm, length_drop. reflexivity.
  - eapply Forall_impl; [exact HF|]. intros c [Hp Hl]. simpl in *.
    split; [exact Hp|]. rewrite Hl.
    destruct (isinstance_Foldable self); lia.
Qed.

Lemma children_skip_first_parent_witness :
  well_founded (merge_base_step sample.repo) /\
  exists n : nat, forall fuel : nat, (n <= fuel)%nat ->
    exists cs,
      children fuel sample.repo
        (new_Foldable Merge sample.gC None 1) = Ok cs /\
      map _commit cs = [sample.gE].
Proof.
  split; [exact sample_well_founded|].
  destruct (children_skip_first_parent sample.repo
              (new_Foldable Merge sample.gC None 1) sample_well_founded)
    as [n Hn].
  exists n. intros fuel Hf. destruct (Hn fuel Hf) as (cs & Hr & Hm & _).
  exists cs. split; [exact Hr|exact Hm].
Defined.

(** ** [Commit.short_id] and the fold flag *)

Lemma str_take_prefix (n : nat) (s : string) :
  exists rest, s = (str_take n s ++ rest)%string.
Proof.
  revert s. induction n as [|n IH]; intros s; simpl.
  - exists s. reflexivity.
  - destruct s as [|a s]; [exists EmptyString; reflexivity|].
    destruct (IH s) as [rest Hrest]. exists rest. simpl.
    rewrite <- Hrest. reflexivity.
Qed.

Lemma str_take_length (n : nat) (s : string) :
  String.length (str_take n s) = Nat.min n (String.length s).
Proof.
  revert s. induction n as [|n IH]; intros s; simpl; [reflexivity|].
  destruct s as [|a s]; simpl; [reflexivity|]. rewrite IH. reflexivity.
Qed.

(** X19. [short_id] is a prefix of the commit id, one character shorter
    than [max_len] asks for: for [max_len] at least 1 it has
    [max_len - 1] characters, or the whole id when that is shorter, so
    the default of 8 gives 7 characters. *)
Theorem short_id_prefix (c : Commit) (max_len : Z) :
  (exists rest, oid c = (short_id c max_len ++ rest)%string) /\
  (1 <= max_len ->
   String.length (short_id c max_len) =
     Nat.min (Z.to_nat (max_len - 1)) (String.length (oid c))) /\
  ((7 <= String.length (oid c))%nat ->
   String.length (short_id c 8) = 7%nat).
Proof.
  unfold short_id, slice_to. split; [|split].
  - destruct (0 <=? max_len - 1); apply str_take_prefix.
  - intros Hm. destruct (Z.leb_spec 0 (max_len - 1)); [|lia].
    apply str_take_length.
  - intros Hlen. destruct (Z.leb_spec 0 (8 - 1)); [|lia].
    rewrite str_take_length. lia.
Qed.

Lemma short_id_prefix_witness :
  1 <= 3 /\
  String.length (short_id (new_Commit PlainCommit sample.gB1 None 1) 3) =
    Nat.min (Z.to_nat (3 - 1))
      (String.length (oid (new_Commit PlainCommit sample.gB1 None 1))).
Proof.
  split; [lia|].
  exact (proj1 (proj2 (short_id_prefix
                         (new_Commit PlainCommit sample.gB1 None 1) 3))
           ltac:(lia)).
Defined.

Lemma to_commit_record (fuel : nat) (repo : Repo) (g : GitCommit)
    (parent : option Commit) (c : Commit) :
  to_commit fuel repo g parent = Some c ->
  c = mkCommit (cls c) g parent (context_level parent)
        (if isinstance_Foldable c then Some true else None).
Proof.
  intros Hc. pose proof (to_commit_stores fuel repo g parent c Hc)
    as (Hg & Hp & Hl).
  destruct fuel as [|fuel]; simpl in Hc; [discriminate|].
  destruct c as [k g' p' l' f']. simpl in *. subst g' p' l'.
  destruct (git_parents g) as [[|p0 [|p1 [|p2 ps]]]|];
    try (injection Hc as <- _ <-; reflexivity).
  destruct (merge_base_with _ repo p0 p1) as [[m|]|];
    [| |discriminate]; injection Hc as <- _ <-; reflexivity.
Qed.

(** X20. Every record [to_commit] builds keeps the commit and the parent
    context it was given; a [Foldable] starts folded and the other
    classes carry no fold flag. For a [Foldable] from [to_commit],
    [unfold] clears the flag and [fold] after [unfold] gives the record
    back. *)
Theorem to_commit_starts_folded (repo : Repo) (g : GitCommit)
    (parent : option Commit) :
  well_founded (merge_base_step repo) ->
  exists n : nat, forall fuel : nat, (n <= fuel)%nat ->
    exists c,
      to_commit fuel repo g parent = Some c /\
      _commit c = g /\ _parent c = parent /\
      is_folded c = (if isinstance_Foldable c then Some true else None) /\
      (isinstance_Foldable c = true ->
       is_folded (unfold c) = Some false /\ fold (unfold c) = c).
Proof.
  intros Hwf. destruct (to_commit_returns repo g (Hwf g)) as [n Hn].
  exists n. intros fuel Hf. destruct (Hn fuel parent Hf) as [c Hc].
  exists c. split; [exact Hc|].
  pose proof (to_commit_record fuel repo g parent c Hc) as Hrec.
  rewrite Hrec. simpl. repeat split; try reflexivity.
  unfold isinstance_Foldable, fold, unfold. simpl.
  destruct (cls c); try discriminate; reflexivity.
Qed.

Lemma to_commit_starts_folded_witness :
  well_founded (merge_base_step sample.repo) /\
  exists n : nat, forall fuel : nat, (n <= fuel)%nat ->
    exists c,
      to_commit fuel sample.repo sample.gC None = Some c /\
      is_folded c = (if isinstance_Foldable c then Some true else None).
Proof.
  split; [exact sample_well_founded|].
  destruct (to_commit_starts_folded sample.repo sample.gC None
              sample_well_founded) as [n Hn].
  exists n. intros fuel Hf.
  destruct (Hn fuel Hf) as (c & Hc & _ & _ & Hflag & _).
  exists c. split; [exact Hc|exact Hflag].
Defined.

End line_more_facts.

(* ===================================================================== *)
(** * Properties of [pygit_viewer/main.py] *)
(* ===================================================================== *)

Module main_facts.
Import line main.

(** ** [fold_close] *)

Lemma fold_close_loop_ends (index : nat) (fuel : nat) :
  forall (lines : list string) (H : list Commit),
    (length lines < fuel)%nat ->
    fold_close_loop fuel lines H index =
      Some (take index H ++
            drop (index + Nat.min (length lines - index) (length H - index))
              H).
Proof.
  induction fuel as [|fuel IH]; intros lines H Hfuel; [lia|].
  simpl. unfold history.del.
  destruct (Nat.ltb_spec index (length lines)) as [Hl|Hl].
  - destruct (Nat.ltb_spec index (length H)) as [Hh|Hh].
    + rewrite IH by (rewrite length_delete by (apply lookup_lt_is_Some; lia);
                     lia).
      rewrite !length_delete by (apply lookup_lt_is_Some; lia).
      rewrite !delete_take_drop.
      rewrite take_app_length' by (rewrite length_take; lia).
      rewrite drop_app_ge by (rewrite length_take; lia).
      rewrite length_take, drop_drop. do 3 f_equal. lia.
    + replace (Nat.min (length lines - index) (length H - index)) with 0%nat
        by lia.
      rewrite Nat.add_0_r, take_drop. reflexivity.
  - replace (Nat.min (length lines - index) (length H - index)) with 0%nat
      by lia.
    rewrite Nat.add_0_r, take_drop. reflexivity.
Qed.

(** X21. [fold_close] never returns. Its loop tests a generator object,
    which is always true, so it deletes the row after the folded one from
    the lines and from [HISTORY] again and again, as long as both have
    one, and ends in [IndexError]; the text of the field is never written
    back. What is left of [HISTORY] is the rows before the folded one,
    the folded one with its flag set, and whatever lay beyond the rows
    deleted. *)
Theorem fold_close_always_raises (splitlines : string -> list string)
    (fuel : nat) (line : Commit) (index : nat) (ui : UI) :
  HISTORY ui !! index = Some line ->
  (length (splitlines (text ui)) < fuel)%nat ->
  let deleted :=
    Nat.min (length (splitlines (text ui)) - (index + 1))
            (length (HISTORY ui) - (index + 1)) in
  exists before after,
    fold_close splitlines fuel line index ui =
      Raised IndexError (mkUI (before ++ fold line :: after) (text ui)) /\
    length before = index /\
    map settled before = map settled (take index (HISTORY ui)) /\
    map settled after =
      map settled (drop (index + 1 + deleted) (HISTORY ui)).
Proof.
  intros Hrow Hfuel deleted. unfold fold_close.
  pose proof (lookup_lt_Some _ _ _ Hrow) as Hi.
  rewrite (fold_close_loop_ends (index + 1) fuel _ _ Hfuel).
  rewrite length_insert. fold deleted.
  rewrite (insert_take_drop (HISTORY ui) index (fold line) Hi).
  exists (take index (HISTORY ui)),
         (drop (index + 1 + deleted) (HISTORY ui)).
  assert (Hlen : length (take index (HISTORY ui)) = index)
    by (rewrite length_take; lia).
  repeat split; [|exact Hlen].
  do 2 f_equal.
  rewrite take_app_ge by lia. rewrite drop_app_ge by lia. rewrite Hlen.
  replace (index + 1 - index)%nat with 1%nat by lia.
  replace (index + 1 + deleted - index)%nat with (S deleted) by lia.
  cbn [take drop]. rewrite take_0, drop_drop, <- app_assoc. simpl.
  do 3 f_equal. lia.
Qed.

Lemma fold_close_always_raises_witness :
  let ui :=
    mkUI (<[1%nat := unfold line.sample.gC_record]> sample.rows)
      (text sample.screen) in
  HISTORY ui !! 1%nat = Some (unfold line.sample.gC_record) /\
  (length (sample.splitlines (text ui)) < 6)%nat /\
  exists before after,
    fold_close sample.splitlines 6 (unfold line.sample.gC_record) 1 ui =
      Raised IndexError
        (mkUI (before ++ line.sample.gC_record :: after) (text ui)) /\
    length before = 1%nat /\
    map settled after = [].
Proof.
  intros ui.
  assert (H1 : HISTORY ui !! 1%nat = Some (unfold line.sample.gC_record))
    by reflexivity.
  assert (H2 : (length (sample.splitlines (text ui)) < 6)%nat)
    by (vm_compute; lia).
  repeat (split; [assumption|]).
  destruct (fold_close_always_raises sample.splitlines 6
              (unfold line.sample.gC_record) 1 ui H1 H2)
    as (before & after & Hrun & Hlen & _ & Hafter).
  exists before, after. repeat split; assumption.
Defined.

(** ** [fold_open] *)

Lemma fold_open_loop_rows (format_commit : Commit -> string)
    (pre post : list Commit) (lpre lpost : list string)
    (cs : list Commit) :
  forall (done : list Commit) (ldone : list string) (index : nat),
    (length pre + length done = index)%nat ->
    (length lpre + length ldone = index + 1)%nat ->
    fold_left (fold_open_step format_commit) cs
      (pre ++ done ++ rev done ++ post, lpre ++ ldone ++ lpost, index) =
    (pre ++ (done ++ cs) ++ rev (done ++ cs) ++ post,
     lpre ++
     (ldone ++
      map (fun c =>
             (str_repeat (Z.to_nat (level c)) "  " ++ format_commit c)%string)
        cs) ++ lpost,
     (index + length cs)%nat).
Proof.
  induction cs as [|c cs IH]; intros done ldone index Hlen Hllen;
    cbn [fold_left map].
  - simpl. rewrite !app_nil_r, Nat.add_0_r. reflexivity.
  - unfold fold_open_step at 2.
    rewrite (app_assoc pre done), (app_assoc lpre ldone).
    rewrite (history_facts.list_insert_at_end _ (pre ++ done))
      by (rewrite length_app; lia).
    rewrite (history_facts.list_insert_at_end _ (lpre ++ ldone))
      by (rewrite length_app; lia).
    replace ((pre ++ done) ++ c :: rev done ++ post)
      with ((pre ++ done ++ [c]) ++ rev done ++ post)
      by (rewrite <- !app_assoc; reflexivity).
    rewrite (history_facts.list_insert_at_end _ (pre ++ done ++ [c]))
      by (rewrite !length_app; simpl; lia).
    replace ((pre ++ done ++ [c]) ++ c :: rev done ++ post)
      with (pre ++ (done ++ [c]) ++ rev (done ++ [c]) ++ post)
      by (rewrite rev_unit, <- !app_assoc; reflexivity).
    replace ((lpre ++ ldone) ++
             (str_repeat (Z.to_nat (level c)) "  " ++ format_commit c)%string
             :: lpost)
      with (lpre ++
            (ldone ++
             [(str_repeat (Z.to_nat (level c)) "  " ++ format_commit c)%string])
            ++ lpost)
      by (rewrite <- !app_assoc; reflexivity).
    rewrite IH by (rewrite length_app; simpl; lia).
    rewrite <- !app_assoc. simpl. f_equal. lia.
Qed.

(** X22. [fold_open] enters every side-branch commit twice into
    [HISTORY]. At a row that exists in [HISTORY] and in the text, when
    the side-branch walk yields k commits, the k records are inserted at
    the row itself, followed by the same k records in reverse order, so
    that the commit that was unfolded ends up 2k rows further down, with
    its flag cleared, while the text gets one line for each record after
    the line of the row. From then on the rows of [HISTORY] and the lines
    of the text no longer correspond. *)
Theorem fold_open_doubles_rows (splitlines : string -> list string)
    (format_commit : Commit -> string) (fuel : nat) (repo : Repo)
    (start : Commit) (index : nat) (ui : UI) (cs : list Commit) :
  HISTORY ui !! index = Some start ->
  child_log fuel repo (unfold start) = Ok cs ->
  (index < length (splitlines (text ui)))%nat ->
  let lines := splitlines (text ui) in
  exists before after,
    fold_open splitlines format_commit fuel repo start index ui =
      Done
        (mkUI (before ++ cs ++ rev cs ++ unfold start :: after)
           (join newline
              (take (index + 1) lines ++
               map (fun c =>
                      (str_repeat (Z.to_nat (level c)) "  " ++
                       format_commit c)%string) cs ++
               drop (index + 1) lines))) /\
    length before = index /\
    map settled before = map settled (take index (HISTORY ui)) /\
    map settled after = map settled (drop (index + 1) (HISTORY ui)) /\
    (before ++ cs ++ rev cs ++ unfold start :: after) !!
      (index + 2 * length cs)%nat = Some (unfold start).
Proof.
  intros Hrow Hlog Hli lines. unfold fold_open. rewrite Hlog.
  fold lines.
  pose proof (lookup_lt_Some _ _ _ Hrow) as Hi.
  set (H := <[index := unfold start]> (HISTORY ui)).
  assert (HiH : (index < length H)%nat)
    by (unfold H; rewrite length_insert; exact Hi).
  assert (Hil : (index < length lines)%nat) by exact Hli.
  pose proof (fold_open_loop_rows format_commit (take index H) (drop index H)
                (take (index + 1) lines) (drop (index + 1) lines) cs [] []
                index) as Hloop.
  cbn [app rev length] in Hloop. rewrite !take_drop in Hloop.
  rewrite Hloop by (rewrite length_take; lia).
  assert (Htake : take index H = take index (HISTORY ui))
    by (unfold H; apply take_insert_ge; lia).
  assert (Hdrop : drop index H =
                  unfold start :: drop (index + 1) (HISTORY ui)).
  { unfold H. rewrite (insert_take_drop (HISTORY ui) index _ Hi).
    rewrite drop_app_ge by (rewrite length_take; lia).
    rewrite length_take.
    replace (index - Nat.min index (length (HISTORY ui)))%nat with 0%nat
      by lia.
    replace (S index) with (index + 1)%nat by lia. reflexivity. }
  rewrite Htake, Hdrop.
  assert (Hlen : length (take index (HISTORY ui)) = index)
    by (rewrite length_take; lia).
  exists (take index (HISTORY ui)), (drop (index + 1) (HISTORY ui)).
  repeat split; [exact Hlen|].
  rewrite app_assoc, app_assoc, lookup_app_r
    by (rewrite !length_app, length_rev; lia).
  rewrite !length_app, length_rev, Hlen.
  replace (index + 2 * length cs - (index + length cs + length cs))%nat
    with 0%nat by lia.
  reflexivity.
Qed.

Lemma fold_open_doubles_rows_witness :
  HISTORY sample.screen !! 1%nat = Some line.sample.gC_record /\
  child_log 2 line.sample.repo (unfold line.sample.gC_record) =
    Ok [new_Foldable Merge line.sample.gE
          (Some (unfold line.sample.gC_record)) 2;
        new_Commit PlainCommit line.sample.gE1
          (Some (new_Foldable Merge line.sample.gE
                   (Some (unfold line.sample.gC_record)) 2)) 3] /\
  (1 < length (sample.splitlines (text sample.screen)))%nat /\
  exists before after ui',
    fold_open sample.splitlines sample.format_commit 2 line.sample.repo
      line.sample.gC_record 1 sample.screen = Done ui' /\
    map oid (HISTORY ui') =
      map oid before ++ ["e"; "e1"; "e1"; "e"; "c"]%string ++ map oid after /\
    length before = 1%nat /\
    map settled after = map settled (drop 2 (HISTORY sample.screen)).
Proof.
  assert (H0 : HISTORY sample.screen !! 1%nat = Some line.sample.gC_record)
    by reflexivity.
  assert (H1 : child_log 2 line.sample.repo (unfold line.sample.gC_record) =
               Ok [new_Foldable Merge line.sample.gE
                     (Some (unfold line.sample.gC_record)) 2;
                   new_Commit PlainCommit line.sample.gE1
                     (Some (new_Foldable Merge line.sample.gE
                              (Some (unfold line.sample.gC_record)) 2)) 3])
    by reflexivity.
  assert (H3 : (1 < length (sample.splitlines (text sample.screen)))%nat)
    by (vm_compute; lia).
  repeat (split; [assumption|]).
  destruct (fold_open_doubles_rows sample.splitlines sample.format_commit 2
              line.sample.repo line.sample.gC_record 1 sample.screen _
              H0 H1 H3)
    as (before & after & Hrun & Hlen & _ & Hafter & _).
  exists before, after. eexists. split; [exact Hrun|].
  split; [|split; assumption].
  cbn [HISTORY]. rewrite !map_app. reflexivity.
Defined.

End main_facts.
